(** * supabase-nextjs-image-api: a shallow embedding of [index.ts]

    The module fetches an image from a storage bucket, derives its type from
    the file extension, describes a [sharp] pipeline (optional rotate+resize,
    optional sharpen, JPEG encoding) and streams the result into an HTTP
    response; every failure is caught once and turned into an error response.

    Modelling conventions.
    - Strings are sequences of 8-bit characters ([string]); [toLowerCase]
      acts on the letters A-Z, which is what the ECMAScript function does on
      such strings.
    - A JavaScript number is a binary64 value.  The numbers that occur here
      are finite and far from the ends of the exponent range, so a number is
      a rational ([Q]) and every arithmetic operation rounds its exact result
      to 53 significant bits, ties to even ([JsNumber.round53]).  The only
      divisors are the width, tested to be non-zero, and the length of a
      buffer that [sharp] has accepted, which is not empty.
    - The storage client and the image decoder are collaborators that may
      fail in any way; a thrown value is known by its string form.  The
      response object and the [onError] hook record what is done to them as
      a trace of events and return.
    - Describing a pipeline does no work, but [resize] checks its argument
      at once: it throws unless the width is a positive integer. *)

From Stdlib Require Import ZArith QArith Qround Qabs Qminmax Qpower Lia Lqa Bool List.
From Stdlib Require Import Ascii String DecimalString.
From Stdlib Require Strings.Byte.
From Stdlib Require Import SpecFloat.
Import ListNotations.

Local Open Scope string_scope.

(** ** ECMAScript strings *)

Module JsString.

(** [String.prototype.toLowerCase], character by character. *)
Definition lowerChar (c : ascii) : ascii :=
  let n := nat_of_ascii c in
  if ((65 <=? n) && (n <=? 90))%nat then ascii_of_nat (n + 32) else c.

Fixpoint toLowerCase (s : string) : string :=
  match s with
  | EmptyString => EmptyString
  | String c r => String (lowerChar c) (toLowerCase r)
  end.

(** [s.endsWith(suf)]: the last [length suf] characters of [s] are [suf]. *)
Definition endsWith (s suf : string) : bool :=
  let n := String.length s in
  let k := String.length suf in
  ((k <=? n)%nat && String.eqb (substring (n - k) k s) suf)%bool.

(** [s.startsWith(t)], the test [includes] makes at every position. *)
Fixpoint startsWith (s t : string) : bool :=
  match t, s with
  | EmptyString, _ => true
  | String _ _, EmptyString => false
  | String a t', String b s' => (Ascii.eqb a b && startsWith s' t')%bool
  end.

(** [s.includes(t)]: [t] occurs in [s] at some position. *)
Fixpoint includes (s t : string) : bool :=
  (startsWith s t ||
   match s with
   | EmptyString => false
   | String _ s' => includes s' t
   end)%bool.

(** The propositions the boolean tests decide. *)
Definition HasSuffix (s suf : string) : Prop := exists pre, s = pre ++ suf.
Definition Contains (s t : string) : Prop := exists a b, s = a ++ t ++ b.

End JsString.

(** ** Node buffers: [Buffer.from(text, "base64")] *)

Module Base64.

(** The value of a character of the base64 alphabet (the URL-safe
    characters [-] and [_] are accepted as well); [None] for any other
    character. *)
Definition sextet (c : ascii) : option N :=
  let n := N_of_ascii c in
  if ((65 <=? n) && (n <=? 90))%N then Some (n - 65)%N
  else if ((97 <=? n) && (n <=? 122))%N then Some (n - 71)%N
  else if ((48 <=? n) && (n <=? 57))%N then Some (n + 4)%N
  else if ((n =? 43) || (n =? 45))%N then Some 62%N
  else if ((n =? 47) || (n =? 95))%N then Some 63%N
  else None.

(** The decoder skips characters outside the alphabet and stops at the
    first [=]. *)
Fixpoint sextets (s : string) : list N :=
  match s with
  | EmptyString => []
  | String c r =>
      if Ascii.eqb c "=" then []
      else match sextet c with
           | Some v => v :: sextets r
           | None => sextets r
           end
  end.

Definition octet (n : N) : Byte.byte :=
  match Byte.of_N (n mod 256) with
  | Some b => b
  | None => Byte.x00
  end.

(** Four sextets give three bytes; a final group of three gives two bytes,
    of two gives one byte, and a single left-over sextet gives none. *)
Fixpoint pack (l : list N) : list Byte.byte :=
  match l with
  | a :: b :: c :: d :: r =>
      octet (N.lor (N.shiftl a 2) (N.shiftr b 4))
      :: octet (N.lor (N.shiftl (N.land b 15) 4) (N.shiftr c 2))
      :: octet (N.lor (N.shiftl (N.land c 3) 6) d)
      :: pack r
  | [a; b; c] =>
      [octet (N.lor (N.shiftl a 2) (N.shiftr b 4));
       octet (N.lor (N.shiftl (N.land b 15) 4) (N.shiftr c 2))]
  | [a; b] => [octet (N.lor (N.shiftl a 2) (N.shiftr b 4))]
  | _ => []
  end.

Definition decode (s : string) : list Byte.byte := pack (sextets s).

End Base64.

Definition byteLength (b : list Byte.byte) : Z := Z.of_nat (List.length b).

(** ** ECMAScript numbers *)

Module JsNumber.

Local Open Scope Q_scope.

(** [ilog2 x] is the binary exponent of a positive [x]:
    [2 ^ ilog2 x <= x < 2 ^ (ilog2 x + 1)]. *)
Definition ilog2 (x : Q) : Z :=
  let k := (Z.log2 (Qnum x) - Z.log2 (Zpos (Qden x)))%Z in
  if Qle_bool (2 ^ k) x then k else (k - 1)%Z.

(** Nearest integer, a tie going to the even neighbour. *)
Definition rne (q : Q) : Z :=
  let f := Qfloor q in
  match Qcompare (q - inject_Z f) (1 # 2) with
  | Lt => f
  | Gt => (f + 1)%Z
  | Eq => if Z.even f then f else (f + 1)%Z
  end.

(** The binary64 value nearest to a rational: 53 significant bits. *)
Definition round53 (x : Q) : Q :=
  if Qeq_bool x 0 then 0
  else
    let e := (ilog2 (Qabs x) - 52)%Z in
    inject_Z (rne (x / 2 ^ e)) * 2 ^ e.

(** The operators [/] and [*]. *)
Definition div (a b : Q) : Q := round53 (a / b).
Definition mul (a b : Q) : Q := round53 (a * b).

(** [Math.min] of two numbers and [Math.round], which takes a half
    upwards; neither rounds its result. *)
Definition mathMin (a b : Q) : Q := Qmin a b.
Definition mathRound (x : Q) : Z := Qfloor (x + (1 # 2)).

(** An integer as a number. *)
Definition ofZ (z : Z) : Q := inject_Z z.

(** [ToString] of an integer-valued number below [10^21]: its decimal
    digits. *)
Definition toString (z : Z) : string := NilZero.string_of_int (Z.to_int z).

End JsNumber.

(** The Standard Library's specification of IEEE 754 arithmetic at the
    binary64 format, against which [JsNumber.round53] is tested below. *)

Module Binary64.

Definition prec : Z := 53.
Definition emax : Z := 1024.

Definition ofZ (z : Z) : spec_float :=
  match z with
  | Z0 => S754_zero false
  | _ => binary_normalize prec emax z 0 false
  end.

Definition toQ (f : spec_float) : Q :=
  match f with
  | S754_finite s m e => (inject_Z (if s then Zneg m else Zpos m) * 2 ^ e)%Q
  | _ => 0%Q
  end.

Definition div (a b : spec_float) : spec_float := SFdiv prec emax a b.
Definition mul (a b : spec_float) : spec_float := SFmul prec emax a b.

(** [w * (m / d)] computed both ways. *)
Definition agrees (w m d : Z) : bool :=
  Qeq_bool (toQ (mul (ofZ w) (div (ofZ m) (ofZ d))))
           (JsNumber.mul (JsNumber.ofZ w)
              (JsNumber.div (JsNumber.ofZ m) (JsNumber.ofZ d))).

Definition range (n : nat) : list Z := map Z.of_nat (seq 1 n).

Definition agreesOnGrid (n : nat) : bool :=
  forallb (fun w => forallb (fun m => forallb (fun d => agrees w m d) (range n))
                            (range n))
          (range n).

End Binary64.

(** ** Thrown values *)

(** A thrown value is an [Error] made by [new Error(message)] or any other
    value a collaborator throws, known by its string form. *)
Inductive Exn : Type :=
| JsError (message : string)
| Thrown (description : string).

(** [e + ""]: for an [Error], [Error.prototype.toString]. *)
Definition exnToString (e : Exn) : string :=
  match e with
  | JsError m => if String.eqb m "" then "Error" else "Error: " ++ m
  | Thrown d => d
  end.

(** ** The [sharp] image pipeline

    A [sharp] object is the input buffer together with the operations
    requested on it, in the order of the calls; nothing is computed until the
    object is piped.  [resize] checks its argument when it is called: a
    width that is not a positive integer is refused with an [Error]. *)

Module Sharp.

Inductive Call : Type :=
| Rotate                                            (* .rotate() *)
| Resize (width : Z)                                (* .resize(width) *)
| Sharpen (sigma : Q)                               (* .sharpen({ sigma }) *)
| Jpeg (quality : Z) (progressive : option bool).   (* .jpeg({ quality, progressive }) *)

Record t : Type := mk { input : list Byte.byte; calls : list Call }.

(** What [metadata()] reports; every field is optional. *)
Record Metadata : Type :=
  { width : option Z; height : option Z; orientation : option Z }.

Definition rotate (s : t) : t := mk (input s) (calls s ++ [Rotate]).
(** The error of a refused [resize(width)]. *)
Definition invalidWidth (w : Z) : Exn :=
  JsError ("Expected positive integer for width but received "
           ++ JsNumber.toString w ++ " of type number").

Definition resize (s : t) (w : Z) : t + Exn :=
  if (0 <? w)%Z then inl (mk (input s) (calls s ++ [Resize w]))
  else inr (invalidWidth w).
Definition sharpen (s : t) (sigma : Q) : t := mk (input s) (calls s ++ [Sharpen sigma]).
Definition jpeg (s : t) (quality : Z) (progressive : option bool) : t :=
  mk (input s) (calls s ++ [Jpeg quality progressive]).

Definition isRotate (c : Call) : bool :=
  match c with Rotate => true | _ => false end.


(** The width asked for by the last [resize], if there is one. *)
Fixpoint resizeWidth (cs : list Call) : option Z :=
  match cs with
  | [] => None
  | c :: r =>
      match resizeWidth r with
      | Some w => Some w
      | None => match c with Resize w => Some w | _ => None end
      end
  end.

(** The format and settings of the last output call. *)
Fixpoint outputFormat (cs : list Call) : option (Z * option bool) :=
  match cs with
  | [] => None
  | c :: r =>
      match outputFormat r with
      | Some f => Some f
      | None => match c with Jpeg q p => Some (q, p) | _ => None end
      end
  end.

(** EXIF orientations 5 to 8 are the transposed ones. *)
Definition transposed (m : Metadata) : bool :=
  match orientation m with
  | Some o => ((5 <=? o) && (o <=? 8))%Z
  | None => false
  end.

(** Pixel width of the encoded image: the width asked for when there is a
    [resize]; otherwise the decoded width, or the decoded height when
    [rotate] turns a transposed image upright. *)
Definition outputWidth (m : Metadata) (s : t) : option Z :=
  match resizeWidth (calls s) with
  | Some w => Some w
  | None =>
      if (existsb isRotate (calls s) && transposed m)%bool
      then height m else width m
  end.

End Sharp.

(** ** Thrown values, collaborators and the response trace *)

Inductive HeaderValue : Type :=
| HStr (s : string)
| HNum (n : Z).

Definition Headers : Type := list (string * HeaderValue).

(** An [onError] hook is an opaque function of type [(e: any) => void]; a
    call of it is recorded, and it returns. *)
Definition Callback : Type := nat.

Inductive Event : Type :=
| EvDownload (bucket path : string)            (* storage.from(bucket).download(path) *)
| EvCall (f : Callback) (arg : Exn)            (* onError(e) *)
| EvWriteHead (status : Z) (headers : Headers) (* apiRes.writeHead(status, headers) *)
| EvPipe (s : Sharp.t)                         (* streamable.pipe(apiRes) *)
| EvWrite (chunk : list Byte.byte)             (* a chunk piped into the response *)
| EvEnd (body : option (list Byte.byte))       (* apiRes.end(body), or end() when a piped source ends *)
| EvStatus (code : Z)                          (* apiRes.status(code) *)
| EvSend (body : string).                      (* .send(body) *)

(** The storage client's answer: [{ data, error }]. *)
Record DownloadResponse : Type :=
  { data : option (list Byte.byte); error : option string }.

(** How a piped stream finishes: with its [end] event or with an [error]
    event. *)
Inductive StreamFinish : Type :=
| Ended
| Failed (e : Exn).

Record StreamOutcome : Type :=
  { chunks : list (list Byte.byte); finish : StreamFinish }.

(** The storage client: what [download] answers for a bucket and a path, or
    what it throws. *)
Definition SupabaseClient : Type := string -> string -> DownloadResponse + Exn.

(** The decoder and encoder behind [sharp]: what [metadata()] reports for a
    buffer (or the error it rejects with) and what a piped pipeline emits. *)
Record SharpEngine : Type :=
  { metadata : list Byte.byte -> Sharp.Metadata + Exn;
    render : Sharp.t -> StreamOutcome }.

(** Computations that record events and may throw. *)
Definition M (A : Type) : Type := (list Event * (A + Exn))%type.

Definition ret {A} (a : A) : M A := ([], inl a).
Definition throw {A} (e : Exn) : M A := ([], inr e).
Definition emit (ev : Event) : M unit := ([ev], inl tt).
Definition lift {A} (r : A + Exn) : M A := ([], r).

Definition bind {A B} (m : M A) (k : A -> M B) : M B :=
  match m with
  | (tr, inl a) => let (tr', r) := k a in ((tr ++ tr')%list, r)
  | (tr, inr e) => (tr, inr e)
  end.

Definition tryCatch {A} (m : M A) (handler : Exn -> M A) : M A :=
  match m with
  | (tr, inl a) => (tr, inl a)
  | (tr, inr e) => let (tr', r) := handler e in ((tr ++ tr')%list, r)
  end.

Notation "x <- m ;; k" := (bind m (fun x => k))
  (at level 61, m at next level, right associativity).
Notation "m ;;; k" := (bind m (fun _ => k))
  (at level 61, right associativity).

(** Truthiness of an optional boolean and of a string. *)
Definition truthy (b : option bool) : bool :=
  match b with Some true => true | _ => false end.

Definition falsyString (s : string) : bool := String.eqb s "".

Fixpoint emitAll (evs : list Event) : M unit :=
  match evs with
  | [] => ret tt
  | ev :: r => emit ev ;;; emitAll r
  end.

(** ** [JSON.stringify] of [{ bucket, path }] *)

Module Json.

Definition hexDigit (n : nat) : ascii :=
  if (n <? 10)%nat then ascii_of_nat (48 + n) else ascii_of_nat (87 + n).

(** [QuoteJSONString] on one character. *)
Definition escapeChar (c : ascii) : string :=
  let n := nat_of_ascii c in
  if (n =? 8)%nat then "\b"
  else if (n =? 9)%nat then "\t"
  else if (n =? 10)%nat then "\n"
  else if (n =? 12)%nat then "\f"
  else if (n =? 13)%nat then "\r"
  else if (n =? 34)%nat then String "\" (String "034" "")
  else if (n =? 92)%nat then "\\"
  else if (n <? 32)%nat
       then "\u00" ++ String (hexDigit (n / 16)) (String (hexDigit (n mod 16)) "")
  else String c "".

Fixpoint escape (s : string) : string :=
  match s with
  | EmptyString => ""
  | String c r => escapeChar c ++ escape r
  end.

Definition quote (s : string) : string :=
  String "034" (escape s ++ String "034" "").

Definition stringifyBucketPath (bucket path : string) : string :=
  "{" ++ quote "bucket" ++ ":" ++ quote bucket ++ ","
      ++ quote "path" ++ ":" ++ quote path ++ "}".

End Json.

(** ** [index.ts] *)

Definition TRANSPARENT_IMAGE_GIF_BYTES : list Byte.byte :=
  Base64.decode "R0lGODlhAQABAIAAAAAAAAAAACH5BAEAAAAALAAAAAABAAEAAAICRAEAOw=".

Definition loadImageFromSupabase
  (serverClient : SupabaseClient) (bucket path : string) : M (list Byte.byte) :=
  emit (EvDownload bucket path) ;;;
  r <- lift (serverClient bucket path) ;;
  let errInfo := Json.stringifyBucketPath bucket path in
  match error r with
  | Some _ => throw (JsError ("Image not found > " ++ errInfo))
  | None =>
      match data r with
      | None => throw (JsError ("Blob was not retrieved > " ++ errInfo))
      | Some blob => ret blob
      end
  end.

(** ** The type detector *)

Definition deriveImageTypeFromPath (path : string) : string :=
  let lPath := JsString.toLowerCase path in
  let ext :=
    if (JsString.endsWith lPath ".jpeg" || JsString.endsWith lPath ".jpg")%bool
    then "jpg"
    else if JsString.endsWith lPath ".gif" then "gif"
    else if JsString.endsWith lPath ".png" then "png"
    else if JsString.endsWith lPath ".heic" then "heic"
    else if JsString.endsWith lPath ".tiff" then "tiff"
    else if JsString.endsWith lPath ".webp" then "webp"
    else "unknown" in
  ext.

Record SupabaseImageData : Type := { bucket : string; path : string }.

(** The numeric options are integers, as the presets have them; the optional
    fields may be absent. *)
Record ImageLoaderOptions : Type :=
  { maxSizeBytes : Z;
    maxSizeWidth : Z;
    quality : Z;
    progressive : option bool;
    standardCacheTime : option Z;
    sharpen : option bool }.

Definition oneKbInBytes : Z := 1024.
Definition hundredKbs : Z := 100 * oneKbInBytes.

Definition STANDARD_CACHE_TIME : Z := 60 * 60 * 24 * 5.

Definition THUMBNAIL_IMAGE_LOADER_OPTIONS : ImageLoaderOptions :=
  {| maxSizeBytes := hundredKbs * 2;
     maxSizeWidth := 120;
     quality := 60;
     progressive := Some true;
     standardCacheTime := Some STANDARD_CACHE_TIME;
     sharpen := None |}.

Definition FULL_IMAGE_LOADER_OPTIONS : ImageLoaderOptions :=
  {| maxSizeBytes := hundredKbs * 10;
     maxSizeWidth := 2500;
     quality := 94;
     progressive := Some true;
     standardCacheTime := Some STANDARD_CACHE_TIME;
     sharpen := None |}.

(** [sharp(buffer)]: an empty buffer is refused at once. *)
Definition sharp (buffer : list Byte.byte) : M Sharp.t :=
  match buffer with
  | [] => throw (JsError "Input Buffer is empty")
  | _ :: _ => ret (Sharp.mk buffer [])
  end.

Definition getStreamableImage
  (engine : SharpEngine) (supabaseClient : SupabaseClient)
  (imageData : SupabaseImageData) (options : ImageLoaderOptions) : M Sharp.t :=
  let imageType := deriveImageTypeFromPath (path imageData) in
  if String.eqb imageType "unknown"
  then throw (JsError ("Unknown image type: " ++ path imageData))
  else
    blob <- loadImageFromSupabase supabaseClient (bucket imageData) (path imageData) ;;
    let buffer := blob in
    parseImage <- sharp buffer ;;
    imageMeta <- lift (metadata engine buffer) ;;
    match Sharp.width imageMeta with
    | None => throw (JsError "Not possible to retrieve image width")
    | Some width =>
        if (width =? 0)%Z
        then throw (JsError "Not possible to retrieve image width")
        else
          let streamable := parseImage in
          streamable <-
            (if ((byteLength buffer >? maxSizeBytes options)%Z
                 || (width >? maxSizeWidth options)%Z)%bool
             then
               let downscaleFactorBytesEstimated :=
                 JsNumber.mathMin 1
                   (JsNumber.div (JsNumber.ofZ (maxSizeBytes options))
                                 (JsNumber.ofZ (byteLength buffer))) in
               let downScaleFactorWidthEstimated :=
                 JsNumber.mathMin 1
                   (JsNumber.div (JsNumber.ofZ (maxSizeWidth options))
                                 (JsNumber.ofZ width)) in
               let factor :=
                 JsNumber.mathMin downScaleFactorWidthEstimated
                                  downscaleFactorBytesEstimated in
               lift (Sharp.resize (Sharp.rotate streamable)
                       (JsNumber.mathRound (JsNumber.mul (JsNumber.ofZ width) factor)))
             else ret streamable) ;;
          let streamable :=
            if truthy (sharpen options)
            then Sharp.sharpen streamable (9 # 10)
            else streamable in
          let streamable :=
            Sharp.jpeg streamable (quality options) (progressive options) in
          ret streamable
    end.

(** The test of line 122 and the width of lines 124 to 139, by name, for the
    statements about them. *)
Definition overBudget (options : ImageLoaderOptions) (byteLen width : Z) : bool :=
  ((byteLen >? maxSizeBytes options)%Z || (width >? maxSizeWidth options)%Z)%bool.

Definition resizeTarget (options : ImageLoaderOptions) (byteLen width : Z) : Z :=
  let downscaleFactorBytesEstimated :=
    JsNumber.mathMin 1
      (JsNumber.div (JsNumber.ofZ (maxSizeBytes options)) (JsNumber.ofZ byteLen)) in
  let downScaleFactorWidthEstimated :=
    JsNumber.mathMin 1
      (JsNumber.div (JsNumber.ofZ (maxSizeWidth options)) (JsNumber.ofZ width)) in
  let factor :=
    JsNumber.mathMin downScaleFactorWidthEstimated downscaleFactorBytesEstimated in
  JsNumber.mathRound (JsNumber.mul (JsNumber.ofZ width) factor).

(** The options of the responder: the loader options, an optional [onError]
    hook and the optional fallback flag. *)
Record ResponderOptions : Type :=
  { loader :> ImageLoaderOptions;
    onError : option Callback;
    useTransparentImageFallback : option bool }.

(** How the promise returned by the responder settles: it resolves, or it
    stays pending for ever. *)
Inductive Settlement : Type :=
| Resolved
| Pending.

(** ["max-age=" + options.standardCacheTime]: an absent field is
    [undefined]. *)
Definition concatOptionalNumber (prefix : string) (n : option Z) : string :=
  prefix ++ match n with
            | Some z => JsNumber.toString z
            | None => "undefined"
            end.

(** [new Promise((resolve) => { streamable.pipe(apiRes);
    streamable.on("end", resolve) })], awaited.  The pipe copies every chunk
    the stream emits into the response and ends the response when the stream
    ends; an [error] event has no listener and settles nothing. *)
Definition pipeUntilEnd (engine : SharpEngine) (streamable : Sharp.t) : M Settlement :=
  emit (EvPipe streamable) ;;;
  let out := render engine streamable in
  emitAll (map EvWrite (chunks out)) ;;;
  match finish out with
  | Ended => emit (EvEnd None) ;;; ret Resolved
  | Failed _ => ret Pending
  end.

(** The [try] block. *)
Definition loadImageSafely_try
  (engine : SharpEngine) (supabaseClient : SupabaseClient)
  (imageData : SupabaseImageData) (options : ResponderOptions) : M Settlement :=
  (if (falsyString (bucket imageData) || falsyString (path imageData))%bool
   then throw (JsError "Invalid image data")
   else ret tt) ;;;
  streamable <- getStreamableImage engine supabaseClient imageData options ;;
  emit (EvWriteHead 200
          [("Content-Type", HStr "image/jpg");
           ("Cache-control",
            HStr (concatOptionalNumber "max-age=" (standardCacheTime options)))]) ;;;
  pipeUntilEnd engine streamable.

(** The [catch] block. *)
Definition loadImageSafely_catch (options : ResponderOptions) (e : Exn) : M Settlement :=
  match onError options with
  | Some f => emit (EvCall f e)
  | None => ret tt
  end ;;;
  let errStr := exnToString e ++ "" in
  let errCode := 500%Z in
  let errMessage := "Internal server error" in
  let '(errCode, errMessage) :=
    if JsString.includes errStr "Image not found"
    then (404%Z, "Image not found")
    else (errCode, errMessage) in
  if truthy (useTransparentImageFallback options)
  then
    emit (EvWriteHead errCode
            [("Content-Type", HStr "image/gif");
             ("Content-Length", HNum (byteLength TRANSPARENT_IMAGE_GIF_BYTES));
             ("Cache-control", HStr "no-cache")]) ;;;
    emit (EvEnd (Some TRANSPARENT_IMAGE_GIF_BYTES)) ;;;
    ret Resolved
  else
    emit (EvStatus errCode) ;;;
    emit (EvSend errMessage) ;;;
    ret Resolved.

Definition loadImageSafely
  (engine : SharpEngine) (supabaseClient : SupabaseClient)
  (imageData : SupabaseImageData) (options : ResponderOptions) : M Settlement :=
  tryCatch (loadImageSafely_try engine supabaseClient imageData options)
           (loadImageSafely_catch options).

(** ** Reading a trace *)

(** Header names are compared without regard to case, as HTTP does. *)
Fixpoint getHeader (name : string) (hs : Headers) : option HeaderValue :=
  match hs with
  | [] => None
  | (k, v) :: r =>
      if String.eqb (JsString.toLowerCase k) (JsString.toLowerCase name)
      then Some v
      else getHeader name r
  end.

Definition isDownload (ev : Event) : bool :=
  match ev with EvDownload _ _ => true | _ => false end.

Definition fetchCount (tr : list Event) : nat :=
  List.length (filter isDownload tr).

(** The events of the streaming phase: the pipe, the chunks it copies and
    the end of the response. *)
Definition isStreaming (ev : Event) : bool :=
  match ev with
  | EvPipe _ | EvWrite _ | EvEnd None => true
  | _ => false
  end.

(** The events the [catch] block can cause. *)
Definition isErrorOutput (ev : Event) : bool :=
  match ev with
  | EvCall _ _ | EvStatus _ | EvSend _ | EvEnd (Some _) => true
  | EvWriteHead code _ => negb (code =? 200)%Z
  | _ => false
  end.

(** The part of a trace that follows the first [writeHead(200, ...)]. *)
Fixpoint afterSuccessHead (tr : list Event) : option (list Event) :=
  match tr with
  | [] => None
  | EvWriteHead 200 _ :: r => Some r
  | _ :: r => afterSuccessHead r
  end.

(** The status of the response: that of the first [writeHead] or [status]. *)
Fixpoint responseStatus (tr : list Event) : option Z :=
  match tr with
  | [] => None
  | EvWriteHead code _ :: _ => Some code
  | EvStatus code :: _ => Some code
  | _ :: r => responseStatus r
  end.

(** The call of the [onError] hook, when the options carry one. *)
Definition hookCalls (options : ResponderOptions) (e : Exn) : list Event :=
  match onError options with
  | Some f => [EvCall f e]
  | None => []
  end.

(** The request names an object with a recognised extension, the storage
    client delivers [blob] for it, and the decoder reports [meta] with the
    non-zero width [w]. *)
Definition Decoded (engine : SharpEngine) (supabaseClient : SupabaseClient)
  (imageData : SupabaseImageData) (blob : list Byte.byte)
  (meta : Sharp.Metadata) (w : Z) : Prop :=
  deriveImageTypeFromPath (path imageData) <> "unknown" /\
  supabaseClient (bucket imageData) (path imageData)
    = inl {| data := Some blob; error := None |} /\
  blob <> [] /\
  metadata engine blob = inl meta /\
  Sharp.width meta = Some w /\
  w <> 0%Z.

(** The calls that follow the optional resize: the optional sharpening and
    the JPEG encoding. *)
Definition encodingCalls (options : ImageLoaderOptions) : list Sharp.Call :=
  ((if truthy (sharpen options) then [Sharp.Sharpen (9 # 10)] else [])
   ++ [Sharp.Jpeg (quality options) (progressive options)])%list.


(** The head and the events of a successful response. *)
Definition successHeaders (options : ResponderOptions) : Headers :=
  [("Content-Type", HStr "image/jpg");
   ("Cache-control",
    HStr (concatOptionalNumber "max-age=" (standardCacheTime options)))].

Definition streamEvents (engine : SharpEngine) (s : Sharp.t) : list Event :=
  (EvPipe s :: map EvWrite (chunks (render engine s))
     ++ match finish (render engine s) with
        | Ended => [EvEnd None]
        | Failed _ => []
        end)%list.

Definition streamSettlement (engine : SharpEngine) (s : Sharp.t) : Settlement :=
  match finish (render engine s) with
  | Ended => Resolved
  | Failed _ => Pending
  end.

(** ** Reading a GIF header

    The signature (six bytes), the logical screen size (two little-endian
    16-bit numbers) and the transparency flag of a graphic control extension
    that follows a two-entry colour table. *)

Definition u16le (lo hi : Byte.byte) : N := (Byte.to_N lo + 256 * Byte.to_N hi)%N.

Definition gifSignature (b : list Byte.byte) : list Byte.byte := firstn 6 b.

Definition gifScreenSize (b : list Byte.byte) : option (N * N) :=
  match skipn 6 b with
  | wl :: wh :: hl :: hh :: _ => Some (u16le wl wh, u16le hl hh)
  | _ => None
  end.

Definition gifTransparencyFlag (b : list Byte.byte) : option bool :=
  match skipn 19 b with
  | Byte.x21 :: Byte.xf9 :: Byte.x04 :: flags :: _ => Some (N.testbit (Byte.to_N flags) 0)
  | _ => None
  end.

(** ** Sample collaborators

    Concrete clients, decoders and requests on which the statements below
    are exercised. *)

Definition sampleBlob : list Byte.byte := [Byte.xff; Byte.xd8; Byte.xff; Byte.xe0].

Definition sampleMeta (w h : Z) (o : option Z) : Sharp.Metadata :=
  {| Sharp.width := Some w; Sharp.height := Some h; Sharp.orientation := o |}.

Definition sampleEngine (w h : Z) (fin : StreamFinish) : SharpEngine :=
  {| metadata := fun _ => inl (sampleMeta w h None);
     render := fun _ => {| chunks := [[Byte.xff; Byte.xd8]; [Byte.xff; Byte.xd9]];
                           finish := fin |} |}.


(** A budget of two bytes and 120 pixels. *)
Definition tinyBudget : ImageLoaderOptions :=
  {| maxSizeBytes := 2; maxSizeWidth := 120; quality := 60;
     progressive := Some true; standardCacheTime := Some STANDARD_CACHE_TIME;
     sharpen := Some true |}.

Definition deliveringClient (blob : list Byte.byte) : SupabaseClient :=
  fun _ _ => inl {| data := Some blob; error := None |}.

Definition missingClient : SupabaseClient :=
  fun _ _ => inl {| data := None; error := Some "Object not found" |}.

Definition emptyAnswerClient : SupabaseClient :=
  fun _ _ => inl {| data := None; error := None |}.

Definition photo : SupabaseImageData := {| bucket := "imgs"; path := "photo.PNG" |}.
Definition document : SupabaseImageData := {| bucket := "imgs"; path := "doc.bmp" |}.
Definition noBucket : SupabaseImageData := {| bucket := ""; path := "photo.PNG" |}.

Definition respondWith (o : ImageLoaderOptions) (fallback : option bool) : ResponderOptions :=
  {| loader := o; onError := Some 7%nat; useTransparentImageFallback := fallback |}.

(** Options that leave [standardCacheTime] out. *)
Definition bareOptions : ImageLoaderOptions :=
  {| maxSizeBytes := 204800; maxSizeWidth := 120; quality := 60;
     progressive := None; standardCacheTime := None; sharpen := None |}.

(** ** Further readers of a trace and further collaborators *)

(** The events that set the status of the response. *)
Definition isHead (ev : Event) : bool :=
  match ev with
  | EvWriteHead _ _ | EvStatus _ => true
  | _ => false
  end.

Definition headCount (tr : list Event) : nat := List.length (filter isHead tr).

(** The events that finish the response: [end] and [send]. *)
Definition isFinish (ev : Event) : bool :=
  match ev with
  | EvEnd _ | EvSend _ => true
  | _ => false
  end.

Definition finishCount (tr : list Event) : nat := List.length (filter isFinish tr).

Definition isHookCall (ev : Event) : bool :=
  match ev with
  | EvCall _ _ => true
  | _ => false
  end.

Definition hookCount (tr : list Event) : nat := List.length (filter isHookCall tr).

Definition isJpeg (c : Sharp.Call) : bool :=
  match c with Sharp.Jpeg _ _ => true | _ => false end.

(** The error for metadata without a usable width. *)
Definition widthError : Exn := JsError "Not possible to retrieve image width".

(** A character that [JSON.stringify] leaves as it is. *)
Definition plainChar (c : ascii) : bool :=
  let n := nat_of_ascii c in
  ((32 <=? n) && negb (n =? 34) && negb (n =? 92))%nat.

Fixpoint plainString (s : string) : bool :=
  match s with
  | EmptyString => true
  | String c r => (plainChar c && plainString r)%bool
  end.

(** The double quote, as a one-character string. *)
Definition dquote : string := String "034" "".

(** A client whose [download] throws, one that answers with an error and
    with data at once, and decoders that report no width or reject. *)
Definition throwingClient (e : Exn) : SupabaseClient := fun _ _ => inr e.

Definition confusedClient (blob : list Byte.byte) : SupabaseClient :=
  fun _ _ => inl {| data := Some blob; error := Some "Object not found" |}.

Definition widthlessEngine : SharpEngine :=
  {| metadata := fun _ => inl {| Sharp.width := None; Sharp.height := None;
                                 Sharp.orientation := None |};
     render := fun _ => {| chunks := []; finish := Ended |} |}.

Definition rejectingEngine (e : Exn) : SharpEngine :=
  {| metadata := fun _ => inr e;
     render := fun _ => {| chunks := []; finish := Ended |} |}.

(** Responder options without an [onError] hook. *)
Definition withoutHook (o : ImageLoaderOptions) (fallback : option bool) : ResponderOptions :=
  {| loader := o; onError := None; useTransparentImageFallback := fallback |}.

(** Options with a byte budget [mb] and a width budget [mw]. *)
Definition budget (mb mw : Z) : ImageLoaderOptions :=
  {| maxSizeBytes := mb; maxSizeWidth := mw; quality := 80;
     progressive := Some false; standardCacheTime := Some 60%Z;
     sharpen := None |}.

(** * Properties *)

(** ** Strings *)

Section StringFacts.

Import JsString.

Lemma append_empty_r (s : string) : s ++ "" = s.
Proof. induction s as [|c s IH]; simpl; [reflexivity | now rewrite IH]. Qed.

Lemma append_assoc (a b c : string) : (a ++ b) ++ c = a ++ (b ++ c).
Proof. induction a as [|x a IH]; simpl; [reflexivity | now rewrite IH]. Qed.

Lemma length_append (a b : string) :
  String.length (a ++ b) = (String.length a + String.length b)%nat.
Proof. induction a as [|x a IH]; simpl; [reflexivity | now rewrite IH]. Qed.

Lemma substring_all (s : string) : substring 0 (String.length s) s = s.
Proof. induction s as [|c s IH]; simpl; [reflexivity | now rewrite IH]. Qed.

Lemma substring_skip (pre suf : string) :
  substring (String.length pre) (String.length suf) (pre ++ suf) = suf.
Proof. induction pre as [|c pre IH]; simpl; [apply substring_all | exact IH]. Qed.

Lemma substring_split (s : string) (n : nat) :
  (n <= String.length s)%nat ->
  s = substring 0 n s ++ substring n (String.length s - n) s.
Proof.
  revert n; induction s as [|c s IH]; intros [|n] Hn; simpl in *.
  - reflexivity.
  - lia.
  - now rewrite substring_all.
  - f_equal. apply IH. lia.
Qed.

Lemma endsWith_spec (s suf : string) :
  endsWith s suf = true <-> HasSuffix s suf.
Proof.
  unfold endsWith, HasSuffix; split.
  - intros H. apply andb_true_iff in H as [Hk He].
    apply Nat.leb_le in Hk. apply String.eqb_eq in He.
    exists (substring 0 (String.length s - String.length suf) s).
    rewrite <- He at 2.
    rewrite (substring_split s (String.length s - String.length suf)) at 1 by lia.
    do 2 f_equal. lia.
  - intros [pre ->]. rewrite length_append.
    apply andb_true_iff; split.
    + apply Nat.leb_le. lia.
    + replace (String.length pre + String.length suf - String.length suf)%nat
        with (String.length pre) by lia.
      rewrite substring_skip. apply String.eqb_refl.
Qed.

(** Two suffixes of one string: the shorter is a suffix of the longer. *)
Lemma suffix_comparable (s p1 s1 p2 s2 : string) :
  s = p1 ++ s1 -> s = p2 ++ s2 ->
  (String.length s1 <= String.length s2)%nat -> HasSuffix s2 s1.
Proof.
  revert s p1; induction p2 as [|c p2 IH]; intros s p1 H1 H2 Hlen.
  - simpl in H2. exists p1. congruence.
  - destruct p1 as [|d p1].
    + simpl in H1. subst s. subst s1.
      simpl in Hlen. rewrite length_append in Hlen. lia.
    + subst s. simpl in H2. injection H2 as _ H2.
      eapply IH; [reflexivity | exact H2 | exact Hlen].
Qed.

Lemma endsWith_exclusive (s a b : string) :
  endsWith a b = false -> endsWith b a = false ->
  endsWith s a = true -> endsWith s b = false.
Proof.
  intros Hab Hba Ha.
  destruct (endsWith s b) eqn:Hb; [exfalso | reflexivity].
  apply endsWith_spec in Ha as [p1 H1]. apply endsWith_spec in Hb as [p2 H2].
  destruct (Nat.le_ge_cases (String.length a) (String.length b)) as [L | L].
  - pose proof (suffix_comparable s p1 a p2 b H1 H2 L) as Hs.
    apply endsWith_spec in Hs. congruence.
  - pose proof (suffix_comparable s p2 b p1 a H2 H1 L) as Hs.
    apply endsWith_spec in Hs. congruence.
Qed.

Lemma startsWith_spec (s t : string) :
  startsWith s t = true <-> exists r, s = t ++ r.
Proof.
  revert s; induction t as [|a t IH]; intros s; simpl.
  - split; [intros _; now exists s | intros _; now destruct s].
  - destruct s as [|b s].
    + split; [discriminate | intros [r Hr]; discriminate].
    + simpl. rewrite andb_true_iff, Ascii.eqb_eq, IH. split.
      * intros [-> [r ->]]. now exists r.
      * intros [r Hr]. injection Hr as -> ->. split; [reflexivity | now exists r].
Qed.

Lemma includes_spec (s t : string) :
  includes s t = true <-> Contains s t.
Proof.
  unfold Contains. induction s as [|c s IH].
  - cbn [includes]. rewrite orb_false_r, startsWith_spec. split.
    + intros [r Hr]. now exists "", r.
    + intros [a [b H]]. destruct a; [simpl in H; now exists b | discriminate].
  - cbn [includes]. rewrite orb_true_iff, IH, startsWith_spec. split.
    + intros [[r Hr] | [a [b H]]].
      * now exists "", r.
      * exists (String c a), b. simpl. now rewrite H.
    + intros [a [b H]]. destruct a as [|d a].
      * left. now exists b.
      * right. simpl in H. injection H as _ H. now exists a, b.
Qed.

Lemma lowerChar_idempotent (c : ascii) : lowerChar (lowerChar c) = lowerChar c.
Proof.
  destruct c as [[] [] [] [] [] [] [] []]; reflexivity.
Qed.

Lemma toLowerCase_idempotent (s : string) :
  toLowerCase (toLowerCase s) = toLowerCase s.
Proof.
  induction s as [|c s IH]; simpl; [reflexivity|].
  now rewrite lowerChar_idempotent, IH.
Qed.

End StringFacts.

Section TypeDetector.

Import JsString.

Lemma lowerChar_dot (c : ascii) : lowerChar c = "."%char -> c = "."%char.
Proof.
  destruct c as [[] [] [] [] [] [] [] []]; cbv; intros H;
    first [reflexivity | discriminate H].
Qed.

Lemma toLowerCase_append_inv (s a b : string) :
  toLowerCase s = a ++ b ->
  exists a' b', s = a' ++ b' /\ toLowerCase a' = a /\ toLowerCase b' = b.
Proof.
  revert s; induction a as [|x a IH]; intros s H.
  - exists "", s. simpl in *. auto.
  - destruct s as [|c s]; [discriminate|].
    simpl in H. injection H as Hx H.
    destruct (IH s H) as [a' [b' [-> [Ha Hb]]]].
    exists (String c a'), b'. simpl. rewrite Ha, Hx. auto.
Qed.

Lemma suffix_has_dot (path suf : string) :
  HasSuffix (toLowerCase path) ("." ++ suf) ->
  exists pre post, path = pre ++ "." ++ post.
Proof.
  intros [pre H].
  apply toLowerCase_append_inv in H as [a' [b' [-> [_ Hb]]]].
  destruct b' as [|c b']; [discriminate|].
  simpl in Hb. injection Hb as Hc _. apply lowerChar_dot in Hc. subst c.
  now exists a', b'.
Qed.

Ltac exclusive l a b :=
  pose proof (endsWith_exclusive l a b eq_refl eq_refl).

(** C8: the detected type is decided by the suffix of the lowercased
    path: [.jpg] and [.jpeg] give jpg, [.gif] gif, [.png] png, [.heic]
    heic, [.tiff] tiff, [.webp] webp, and every other path gives unknown,
    in particular a path without a dot; two paths that agree once
    lowercased get the same type. *)
Theorem deriveImageTypeFromPath_by_suffix (path : string) :
  let l := toLowerCase path in
  let ends := HasSuffix l in
  (ends ".jpg" \/ ends ".jpeg" -> deriveImageTypeFromPath path = "jpg") /\
  (ends ".gif" -> deriveImageTypeFromPath path = "gif") /\
  (ends ".png" -> deriveImageTypeFromPath path = "png") /\
  (ends ".heic" -> deriveImageTypeFromPath path = "heic") /\
  (ends ".tiff" -> deriveImageTypeFromPath path = "tiff") /\
  (ends ".webp" -> deriveImageTypeFromPath path = "webp") /\
  (~ (ends ".jpg" \/ ends ".jpeg" \/ ends ".gif" \/ ends ".png" \/
      ends ".heic" \/ ends ".tiff" \/ ends ".webp") ->
   deriveImageTypeFromPath path = "unknown") /\
  (forall other, toLowerCase other = l ->
                 deriveImageTypeFromPath other = deriveImageTypeFromPath path) /\
  ((forall pre post, path <> pre ++ "." ++ post) ->
   deriveImageTypeFromPath path = "unknown").
Proof.
  intros l ends.
  assert (Hmain :
    (ends ".jpg" \/ ends ".jpeg" -> deriveImageTypeFromPath path = "jpg") /\
    (ends ".gif" -> deriveImageTypeFromPath path = "gif") /\
    (ends ".png" -> deriveImageTypeFromPath path = "png") /\
    (ends ".heic" -> deriveImageTypeFromPath path = "heic") /\
    (ends ".tiff" -> deriveImageTypeFromPath path = "tiff") /\
    (ends ".webp" -> deriveImageTypeFromPath path = "webp") /\
    (~ (ends ".jpg" \/ ends ".jpeg" \/ ends ".gif" \/ ends ".png" \/
        ends ".heic" \/ ends ".tiff" \/ ends ".webp") ->
     deriveImageTypeFromPath path = "unknown")).
  { unfold ends, deriveImageTypeFromPath. fold l.
    rewrite <- !endsWith_spec.
    exclusive l ".gif" ".jpeg". exclusive l ".gif" ".jpg".
    exclusive l ".png" ".jpeg". exclusive l ".png" ".jpg".
    exclusive l ".png" ".gif".
    exclusive l ".heic" ".jpeg". exclusive l ".heic" ".jpg".
    exclusive l ".heic" ".gif". exclusive l ".heic" ".png".
    exclusive l ".tiff" ".jpeg". exclusive l ".tiff" ".jpg".
    exclusive l ".tiff" ".gif". exclusive l ".tiff" ".png".
    exclusive l ".tiff" ".heic".
    exclusive l ".webp" ".jpeg". exclusive l ".webp" ".jpg".
    exclusive l ".webp" ".gif". exclusive l ".webp" ".png".
    exclusive l ".webp" ".heic". exclusive l ".webp" ".tiff".
    destruct (endsWith l ".jpeg"), (endsWith l ".jpg"), (endsWith l ".gif"),
      (endsWith l ".png"), (endsWith l ".heic"), (endsWith l ".tiff"),
      (endsWith l ".webp"); cbn [orb];
      repeat split; intros; try reflexivity;
      try (exfalso; intuition discriminate). }
  destruct Hmain as (Hjpg & Hgif & Hpng & Hheic & Htiff & Hwebp & Hnone).
  repeat (split; [assumption|]). split.
  - intros other Ho. unfold deriveImageTypeFromPath. now rewrite Ho.
  - intros Hnodot. apply Hnone. intros Hsome.
    assert (Hdot : exists pre post, path = pre ++ "." ++ post).
    { destruct Hsome as [H | [H | [H | [H | [H | [H | H]]]]]];
        eapply suffix_has_dot; exact H. }
    destruct Hdot as [pre [post Hp]]. exact (Hnodot pre post Hp).
Qed.

End TypeDetector.

Example detect_png_upper : deriveImageTypeFromPath "photo.PNG" = "png".
Proof. reflexivity. Qed.

Example detect_jpeg_mixed : deriveImageTypeFromPath "a/b/Holiday.JpEg" = "jpg".
Proof. reflexivity. Qed.

Example detect_bmp : deriveImageTypeFromPath "doc.bmp" = "unknown".
Proof. reflexivity. Qed.

Example detect_svg : deriveImageTypeFromPath "logo.svg" = "unknown".
Proof. reflexivity. Qed.

Example detect_no_extension : deriveImageTypeFromPath "README" = "unknown".
Proof. reflexivity. Qed.

Example detect_bare_suffix : deriveImageTypeFromPath ".gif" = "gif".
Proof. reflexivity. Qed.

Example detect_missing_dot : deriveImageTypeFromPath "gif" = "unknown".
Proof. reflexivity. Qed.

Example detect_last_suffix_only : deriveImageTypeFromPath "scan.png.tiff" = "tiff".
Proof. reflexivity. Qed.

(** ** The responder *)

Section Responder.

Variable engine : SharpEngine.
Variable supabaseClient : SupabaseClient.
Variable imageData : SupabaseImageData.
Variable options : ResponderOptions.

Lemma eqb_unknown_false (t : string) :
  t <> "unknown" -> String.eqb t "unknown" = false.
Proof. intros H. now apply String.eqb_neq. Qed.

(** The fetcher records exactly one download. *)
Lemma loadImageFromSupabase_trace (b p : string) :
  fst (loadImageFromSupabase supabaseClient b p) = [EvDownload b p].
Proof.
  unfold loadImageFromSupabase, bind, emit, lift, throw, ret.
  destruct (supabaseClient b p) as [r | e]; simpl; [|reflexivity].
  destruct (error r); [reflexivity|].
  destruct (data r); reflexivity.
Qed.

(** The pipeline is built without any event other than the download, and
    when the type is unknown without any event at all. *)
Lemma getStreamableImage_trace (o : ImageLoaderOptions) :
  fst (getStreamableImage engine supabaseClient imageData o) = []
  \/ fst (getStreamableImage engine supabaseClient imageData o)
     = [EvDownload (bucket imageData) (path imageData)].
Proof.
  unfold getStreamableImage.
  destruct (String.eqb _ "unknown"); [left; reflexivity | right].
  pose proof (loadImageFromSupabase_trace (bucket imageData) (path imageData)) as Ht.
  destruct (loadImageFromSupabase supabaseClient (bucket imageData) (path imageData))
    as [tr [blob | e]]; simpl in Ht; subst tr; [|reflexivity].
  unfold bind at 1.
  destruct blob as [|x blob]; [reflexivity|].
  unfold sharp, bind, ret, lift, throw.
  destruct (metadata engine (x :: blob)) as [m | e]; [|reflexivity].
  destruct (Sharp.width m) as [w|]; [|reflexivity].
  destruct (w =? 0)%Z; [reflexivity|].
  destruct ((byteLength (x :: blob) >? maxSizeBytes o)%Z || (w >? maxSizeWidth o)%Z)%bool;
    [|reflexivity].
  unfold Sharp.resize.
  match goal with |- context [(0 <? ?t)%Z] => destruct (0 <? t)%Z end; reflexivity.
Qed.

(** The streaming phase never throws. *)
Lemma pipeUntilEnd_result (s : Sharp.t) :
  pipeUntilEnd engine s
  = ((EvPipe s :: map EvWrite (chunks (render engine s))
        ++ match finish (render engine s) with
           | Ended => [EvEnd None]
           | Failed _ => []
           end)%list,
     inl match finish (render engine s) with
         | Ended => Resolved
         | Failed _ => Pending
         end).
Proof.
  unfold pipeUntilEnd.
  generalize (finish (render engine s)) as fin.
  generalize (chunks (render engine s)) as cs.
  intros cs fin. unfold bind at 1. unfold emit. cbn [app].
  assert (Hall : forall l, emitAll (map EvWrite l) = (map EvWrite l, inl tt)).
  { induction l as [|c l IH]; simpl; [reflexivity|].
    unfold bind, emit. rewrite IH. reflexivity. }
  unfold bind at 1. rewrite Hall.
  destruct fin; unfold bind, emit, ret; simpl; rewrite ?app_nil_r; reflexivity.
Qed.

(** A failure of the [try] block happens before anything is written: its
    trace holds at most the download. *)
Lemma try_failure_trace (tr : list Event) (e : Exn) :
  loadImageSafely_try engine supabaseClient imageData options = (tr, inr e) ->
  tr = [] \/ tr = [EvDownload (bucket imageData) (path imageData)].
Proof.
  unfold loadImageSafely_try.
  destruct (falsyString (bucket imageData) || falsyString (path imageData))%bool.
  - unfold bind, throw. intros H. injection H as <- _. now left.
  - unfold bind at 1. unfold ret at 1. cbn [app].
    pose proof (getStreamableImage_trace options) as Ht.
    destruct (getStreamableImage engine supabaseClient imageData options)
      as [tr0 [s | e0]]; simpl in Ht.
    + unfold bind at 1. unfold bind at 1. unfold emit.
      rewrite pipeUntilEnd_result. discriminate.
    + unfold bind. intros H. injection H as <- _. exact Ht.
Qed.

(** What the responder does with a caught error. *)
Lemma loadImageSafely_failure (tr : list Event) (e : Exn) :
  loadImageSafely_try engine supabaseClient imageData options = (tr, inr e) ->
  loadImageSafely engine supabaseClient imageData options
  = ((tr ++ hookCalls options e
         ++ let code := if JsString.includes (exnToString e) "Image not found"
                        then 404%Z else 500%Z in
            if truthy (useTransparentImageFallback options)
            then [EvWriteHead code
                    [("Content-Type", HStr "image/gif");
                     ("Content-Length", HNum (byteLength TRANSPARENT_IMAGE_GIF_BYTES));
                     ("Cache-control", HStr "no-cache")];
                  EvEnd (Some TRANSPARENT_IMAGE_GIF_BYTES)]
            else [EvStatus code;
                  EvSend (if JsString.includes (exnToString e) "Image not found"
                          then "Image not found" else "Internal server error")])%list,
     inl Resolved).
Proof.
  intros H. unfold loadImageSafely, tryCatch. rewrite H.
  unfold loadImageSafely_catch, hookCalls. rewrite append_empty_r.
  destruct (onError options) as [f|];
    destruct (JsString.includes (exnToString e) "Image not found");
    destruct (truthy (useTransparentImageFallback options));
    reflexivity.
Qed.

Lemma responseStatus_after_downloads (tr rest : list Event) :
  tr = [] \/ tr = [EvDownload (bucket imageData) (path imageData)] ->
  responseStatus (tr ++ rest) = responseStatus rest.
Proof. intros [-> | ->]; reflexivity. Qed.

Lemma responseStatus_after_hook (e : Exn) (rest : list Event) :
  responseStatus (hookCalls options e ++ rest) = responseStatus rest.
Proof. unfold hookCalls. destruct (onError options); reflexivity. Qed.

End Responder.

(** ** Error classification *)

(** C2: a failure caught by the responder is classified by looking for
    "Image not found" in its string form: the status is 404 when it occurs
    and 500 otherwise, whatever the fallback flag; without the fallback the
    response is that status with the message "Image not found", respectively
    "Internal server error", as its body. *)
Theorem caught_error_classified_by_substring
  (engine : SharpEngine) (supabaseClient : SupabaseClient)
  (imageData : SupabaseImageData) (options : ResponderOptions)
  (tr : list Event) (e : Exn) :
  loadImageSafely_try engine supabaseClient imageData options = (tr, inr e) ->
  let found := JsString.includes (exnToString e) "Image not found" in
  let code := if found then 404%Z else 500%Z in
  let message := if found then "Image not found" else "Internal server error" in
  (found = true <-> JsString.Contains (exnToString e) "Image not found") /\
  responseStatus (fst (loadImageSafely engine supabaseClient imageData options))
    = Some code /\
  (truthy (useTransparentImageFallback options) = false ->
   loadImageSafely engine supabaseClient imageData options
   = ((tr ++ hookCalls options e ++ [EvStatus code; EvSend message])%list,
      inl Resolved)).
Proof.
  intros Htry found code message.
  pose proof (loadImageSafely_failure _ _ _ _ _ _ Htry) as Hrun.
  pose proof (try_failure_trace _ _ _ _ _ _ Htry) as Htr.
  fold found in Hrun. cbv zeta in Hrun. fold code in Hrun.
  split; [apply includes_spec|]. split.
  - rewrite Hrun. cbn [fst].
    rewrite (responseStatus_after_downloads imageData tr _ Htr).
    rewrite responseStatus_after_hook.
    destruct (truthy (useTransparentImageFallback options)); reflexivity.
  - intros Hflag. rewrite Hrun, Hflag. reflexivity.
Qed.

Lemma caught_error_classified_by_substring_witness :
  loadImageSafely_try (sampleEngine 100 50 Ended) missingClient photo
    (respondWith THUMBNAIL_IMAGE_LOADER_OPTIONS None)
  = ([EvDownload "imgs" "photo.PNG"],
     inr (JsError ("Image not found > " ++ Json.stringifyBucketPath "imgs" "photo.PNG")))
  /\ loadImageSafely (sampleEngine 100 50 Ended) missingClient photo
       (respondWith THUMBNAIL_IMAGE_LOADER_OPTIONS None)
     = ([EvDownload "imgs" "photo.PNG";
         EvCall 7%nat
           (JsError ("Image not found > " ++ Json.stringifyBucketPath "imgs" "photo.PNG"));
         EvStatus 404; EvSend "Image not found"],
        inl Resolved).
Proof.
  split; [reflexivity|].
  apply (caught_error_classified_by_substring
           (sampleEngine 100 50 Ended) missingClient photo
           (respondWith THUMBNAIL_IMAGE_LOADER_OPTIONS None)
           [EvDownload "imgs" "photo.PNG"]
           (JsError ("Image not found > " ++ Json.stringifyBucketPath "imgs" "photo.PNG"))
           eq_refl).
  reflexivity.
Defined.

(** An answer without data is not "not found": it is classified 500. *)
Example empty_answer_is_internal_error :
  loadImageSafely (sampleEngine 100 50 Ended) emptyAnswerClient photo
    (respondWith THUMBNAIL_IMAGE_LOADER_OPTIONS (Some false))
  = ([EvDownload "imgs" "photo.PNG";
      EvCall 7%nat
        (JsError ("Blob was not retrieved > " ++ Json.stringifyBucketPath "imgs" "photo.PNG"));
      EvStatus 500; EvSend "Internal server error"],
     inl Resolved).
Proof. reflexivity. Qed.

(** The match is on the text alone: an unknown-type error for a path that
    holds the text is answered with 404 as well. *)
Example unknown_type_with_matching_path :
  loadImageSafely (sampleEngine 100 50 Ended) missingClient
    {| bucket := "imgs"; path := "Image not found.bmp" |}
    (respondWith THUMBNAIL_IMAGE_LOADER_OPTIONS None)
  = ([EvCall 7%nat (JsError "Unknown image type: Image not found.bmp");
      EvStatus 404; EvSend "Image not found"],
     inl Resolved).
Proof. reflexivity. Qed.

(** ** The fallback image *)

(** C3: with the fallback flag set, a caught failure is answered with the
    classified status (404 or 500), the headers Content-Type image/gif,
    Content-Length the byte length of the fallback asset (43) and
    Cache-Control no-cache, and the asset as body: the 43 bytes that the
    base64 text decodes to, a GIF89a image. *)
Theorem fallback_serves_transparent_gif
  (engine : SharpEngine) (supabaseClient : SupabaseClient)
  (imageData : SupabaseImageData) (options : ResponderOptions)
  (tr : list Event) (e : Exn) :
  loadImageSafely_try engine supabaseClient imageData options = (tr, inr e) ->
  truthy (useTransparentImageFallback options) = true ->
  exists code headers,
    code = (if JsString.includes (exnToString e) "Image not found"
            then 404%Z else 500%Z) /\
    loadImageSafely engine supabaseClient imageData options
    = ((tr ++ hookCalls options e
           ++ [EvWriteHead code headers; EvEnd (Some TRANSPARENT_IMAGE_GIF_BYTES)])%list,
       inl Resolved) /\
    responseStatus (fst (loadImageSafely engine supabaseClient imageData options))
      = Some code /\
    headers = [("Content-Type", HStr "image/gif");
               ("Content-Length", HNum 43);
               ("Cache-control", HStr "no-cache")] /\
    getHeader "Content-Type" headers = Some (HStr "image/gif") /\
    getHeader "Content-Length" headers
      = Some (HNum (byteLength TRANSPARENT_IMAGE_GIF_BYTES)) /\
    getHeader "Cache-Control" headers = Some (HStr "no-cache") /\
    TRANSPARENT_IMAGE_GIF_BYTES
      = Base64.decode "R0lGODlhAQABAIAAAAAAAAAAACH5BAEAAAAALAAAAAABAAEAAAICRAEAOw=" /\
    TRANSPARENT_IMAGE_GIF_BYTES
      = [Byte.x47; Byte.x49; Byte.x46; Byte.x38; Byte.x39; Byte.x61;
         Byte.x01; Byte.x00; Byte.x01; Byte.x00; Byte.x80; Byte.x00; Byte.x00;
         Byte.x00; Byte.x00; Byte.x00; Byte.x00; Byte.x00; Byte.x00;
         Byte.x21; Byte.xf9; Byte.x04; Byte.x01; Byte.x00; Byte.x00; Byte.x00;
         Byte.x00;
         Byte.x2c; Byte.x00; Byte.x00; Byte.x00; Byte.x00; Byte.x01; Byte.x00;
         Byte.x01; Byte.x00; Byte.x00;
         Byte.x02; Byte.x02; Byte.x44; Byte.x01; Byte.x00;
         Byte.x3b]%list.
Proof.
  intros Htry Hflag.
  pose proof (loadImageSafely_failure _ _ _ _ _ _ Htry) as Hrun.
  pose proof (try_failure_trace _ _ _ _ _ _ Htry) as Htr.
  rewrite Hflag in Hrun. cbv zeta in Hrun.
  eexists. eexists. split; [reflexivity|]. split; [exact Hrun|].
  split.
  - rewrite Hrun. cbn [fst].
    rewrite (responseStatus_after_downloads imageData tr _ Htr).
    rewrite responseStatus_after_hook. reflexivity.
  - repeat split; reflexivity.
Qed.

Lemma fallback_serves_transparent_gif_witness :
  loadImageSafely_try (sampleEngine 100 50 Ended) missingClient photo
    (respondWith THUMBNAIL_IMAGE_LOADER_OPTIONS (Some true))
  = ([EvDownload "imgs" "photo.PNG"],
     inr (JsError ("Image not found > " ++ Json.stringifyBucketPath "imgs" "photo.PNG")))
  /\ truthy (useTransparentImageFallback
               (respondWith THUMBNAIL_IMAGE_LOADER_OPTIONS (Some true))) = true
  /\ responseStatus
       (fst (loadImageSafely (sampleEngine 100 50 Ended) missingClient photo
               (respondWith THUMBNAIL_IMAGE_LOADER_OPTIONS (Some true))))
     = Some 404%Z.
Proof.
  split; [reflexivity|]. split; [reflexivity|].
  destruct (fallback_serves_transparent_gif
              (sampleEngine 100 50 Ended) missingClient photo
              (respondWith THUMBNAIL_IMAGE_LOADER_OPTIONS (Some true))
              [EvDownload "imgs" "photo.PNG"]
              (JsError ("Image not found > " ++ Json.stringifyBucketPath "imgs" "photo.PNG"))
              eq_refl eq_refl)
    as [code [headers [Hcode [_ [Hstatus _]]]]].
  rewrite Hstatus, Hcode. reflexivity.
Defined.

(** The fallback asset is a GIF89a image of one pixel by one pixel whose
    graphic control extension marks a transparent colour. *)
Example fallback_asset_is_transparent_pixel :
  gifSignature TRANSPARENT_IMAGE_GIF_BYTES
  = [Byte.x47; Byte.x49; Byte.x46; Byte.x38; Byte.x39; Byte.x61] /\
  gifScreenSize TRANSPARENT_IMAGE_GIF_BYTES = Some (1%N, 1%N) /\
  gifTransparencyFlag TRANSPARENT_IMAGE_GIF_BYTES = Some true /\
  byteLength TRANSPARENT_IMAGE_GIF_BYTES = 43%Z.
Proof. vm_compute. repeat split. Qed.

(** A properly padded text decodes to the same bytes. *)
Example fallback_asset_padding :
  Base64.decode "R0lGODlhAQABAIAAAAAAAAAAACH5BAEAAAAALAAAAAABAAEAAAICRAEAOw=="
  = TRANSPARENT_IMAGE_GIF_BYTES.
Proof. vm_compute. reflexivity. Qed.

(** ** Rejections that precede the download *)

Lemma fetchCount_catch (options : ResponderOptions) (e : Exn) :
  fetchCount (fst (loadImageSafely_catch options e)) = 0%nat.
Proof.
  unfold loadImageSafely_catch.
  destruct (onError options) as [f|];
    destruct (JsString.includes (exnToString e ++ "") "Image not found");
    destruct (truthy (useTransparentImageFallback options));
    reflexivity.
Qed.

(** C6: when the type detected for the path is unknown, the pipeline throws
    the unknown-type error without having called the storage client, and the
    responder's whole trace holds no download. *)
Theorem unknown_type_fails_before_fetch
  (engine : SharpEngine) (supabaseClient : SupabaseClient)
  (imageData : SupabaseImageData) (options : ResponderOptions) :
  deriveImageTypeFromPath (path imageData) = "unknown" ->
  getStreamableImage engine supabaseClient imageData options
  = ([], inr (JsError ("Unknown image type: " ++ path imageData))) /\
  fetchCount (fst (loadImageSafely engine supabaseClient imageData options)) = 0%nat.
Proof.
  intros Hunknown.
  assert (Hget : getStreamableImage engine supabaseClient imageData options
                 = ([], inr (JsError ("Unknown image type: " ++ path imageData)))).
  { unfold getStreamableImage. rewrite Hunknown. reflexivity. }
  split; [exact Hget|].
  unfold loadImageSafely, tryCatch, loadImageSafely_try.
  destruct (falsyString (bucket imageData) || falsyString (path imageData))%bool.
  - unfold bind, throw.
    pose proof (fetchCount_catch options (JsError "Invalid image data")) as Hc.
    destruct (loadImageSafely_catch options (JsError "Invalid image data")) as [tr' r].
    exact Hc.
  - unfold bind at 1. unfold ret at 1. rewrite Hget. unfold bind.
    pose proof (fetchCount_catch options
                  (JsError ("Unknown image type: " ++ path imageData))) as Hc.
    destruct (loadImageSafely_catch options
                (JsError ("Unknown image type: " ++ path imageData))) as [tr' r].
    exact Hc.
Qed.

Lemma unknown_type_fails_before_fetch_witness :
  deriveImageTypeFromPath (path document) = "unknown"
  /\ getStreamableImage (sampleEngine 100 50 Ended) (deliveringClient sampleBlob)
       document THUMBNAIL_IMAGE_LOADER_OPTIONS
     = ([], inr (JsError "Unknown image type: doc.bmp"))
  /\ fetchCount
       (fst (loadImageSafely (sampleEngine 100 50 Ended) (deliveringClient sampleBlob)
               document (respondWith THUMBNAIL_IMAGE_LOADER_OPTIONS None))) = 0%nat.
Proof.
  split; [reflexivity|].
  exact (unknown_type_fails_before_fetch
           (sampleEngine 100 50 Ended) (deliveringClient sampleBlob)
           document (respondWith THUMBNAIL_IMAGE_LOADER_OPTIONS None) eq_refl).
Defined.

(** C7: a request whose bucket or path is the empty string fails at once
    with the invalid-request error: the [try] block has recorded nothing, in
    particular no download, and the responder answers as the [catch] block
    does for that error, with status 500. *)
Theorem empty_reference_rejected_before_io
  (engine : SharpEngine) (supabaseClient : SupabaseClient)
  (imageData : SupabaseImageData) (options : ResponderOptions) :
  bucket imageData = "" \/ path imageData = "" ->
  loadImageSafely_try engine supabaseClient imageData options
  = ([], inr (JsError "Invalid image data")) /\
  loadImageSafely engine supabaseClient imageData options
  = loadImageSafely_catch options (JsError "Invalid image data") /\
  fetchCount (fst (loadImageSafely engine supabaseClient imageData options)) = 0%nat /\
  responseStatus (fst (loadImageSafely engine supabaseClient imageData options))
  = Some 500%Z /\
  snd (loadImageSafely engine supabaseClient imageData options) = inl Resolved.
Proof.
  intros Hempty.
  assert (Hfalsy : (falsyString (bucket imageData) || falsyString (path imageData))%bool
                   = true).
  { unfold falsyString. destruct Hempty as [-> | ->]; simpl;
      [reflexivity | apply orb_true_r]. }
  assert (Htry : loadImageSafely_try engine supabaseClient imageData options
                 = ([], inr (JsError "Invalid image data"))).
  { unfold loadImageSafely_try. rewrite Hfalsy. reflexivity. }
  assert (Hrun : loadImageSafely engine supabaseClient imageData options
                 = loadImageSafely_catch options (JsError "Invalid image data")).
  { unfold loadImageSafely, tryCatch. rewrite Htry.
    destruct (loadImageSafely_catch options (JsError "Invalid image data")).
    reflexivity. }
  split; [exact Htry|]. split; [exact Hrun|].
  rewrite Hrun. split; [apply fetchCount_catch|].
  unfold loadImageSafely_catch.
  destruct (onError options) as [f|];
    destruct (truthy (useTransparentImageFallback options));
    split; reflexivity.
Qed.

Lemma empty_reference_rejected_before_io_witness :
  (bucket noBucket = "" \/ path noBucket = "")
  /\ loadImageSafely (sampleEngine 100 50 Ended) (deliveringClient sampleBlob)
       noBucket (respondWith THUMBNAIL_IMAGE_LOADER_OPTIONS None)
     = ([EvCall 7%nat (JsError "Invalid image data");
         EvStatus 500; EvSend "Internal server error"],
        inl Resolved).
Proof.
  split; [left; reflexivity|].
  destruct (empty_reference_rejected_before_io
              (sampleEngine 100 50 Ended) (deliveringClient sampleBlob)
              noBucket (respondWith THUMBNAIL_IMAGE_LOADER_OPTIONS None)
              (or_introl eq_refl))
    as [_ [Hrun _]].
  rewrite Hrun. reflexivity.
Defined.

(** ** The success path *)

(** The [try] block, once the pipeline has been built. *)
Lemma try_after_pipeline
  (engine : SharpEngine) (supabaseClient : SupabaseClient)
  (imageData : SupabaseImageData) (options : ResponderOptions)
  (pre : list Event) (s : Sharp.t) :
  (falsyString (bucket imageData) || falsyString (path imageData))%bool = false ->
  getStreamableImage engine supabaseClient imageData options = (pre, inl s) ->
  loadImageSafely_try engine supabaseClient imageData options
  = ((pre ++ EvWriteHead 200 (successHeaders options) :: streamEvents engine s)%list,
     inl (streamSettlement engine s)).
Proof.
  intros Hvalid Hget. unfold loadImageSafely_try.
  rewrite Hvalid. unfold bind at 1. unfold ret at 1. rewrite Hget.
  unfold bind at 1. unfold bind at 1. unfold emit.
  rewrite pipeUntilEnd_result. reflexivity.
Qed.

(** A [try] block that returns has built the pipeline. *)
Lemma try_success_inv
  (engine : SharpEngine) (supabaseClient : SupabaseClient)
  (imageData : SupabaseImageData) (options : ResponderOptions)
  (tr : list Event) (v : Settlement) :
  loadImageSafely_try engine supabaseClient imageData options = (tr, inl v) ->
  exists pre s,
    getStreamableImage engine supabaseClient imageData options = (pre, inl s) /\
    (pre = [] \/ pre = [EvDownload (bucket imageData) (path imageData)]) /\
    tr = (pre ++ EvWriteHead 200 (successHeaders options) :: streamEvents engine s)%list /\
    v = streamSettlement engine s.
Proof.
  intros Htry.
  destruct (falsyString (bucket imageData) || falsyString (path imageData))%bool
    eqn:Hvalid.
  - unfold loadImageSafely_try in Htry. rewrite Hvalid in Htry. discriminate.
  - pose proof (getStreamableImage_trace engine supabaseClient imageData options) as Hpre.
    destruct (getStreamableImage engine supabaseClient imageData options)
      as [pre [s | e]] eqn:Hget.
    + rewrite (try_after_pipeline _ _ _ _ pre s Hvalid Hget) in Htry.
      injection Htry as <- <-. exists pre, s. auto.
    + unfold loadImageSafely_try in Htry. rewrite Hvalid, Hget in Htry.
      discriminate.
Qed.

Lemma streamEvents_streaming (engine : SharpEngine) (s : Sharp.t) :
  Forall (fun ev => isStreaming ev = true) (streamEvents engine s).
Proof.
  unfold streamEvents. constructor; [reflexivity|].
  apply Forall_app; split.
  - apply Forall_forall. intros ev Hin. apply in_map_iff in Hin as [c [<- _]].
    reflexivity.
  - destruct (finish (render engine s)); repeat constructor.
Qed.

Lemma streaming_not_error (ev : Event) :
  isStreaming ev = true -> isErrorOutput ev = false.
Proof. destruct ev as [| | | | | [b|] | |]; simpl; congruence. Qed.

(** A caught failure leaves no [writeHead(200, ...)] in the trace. *)
Lemma failure_has_no_success_head
  (engine : SharpEngine) (supabaseClient : SupabaseClient)
  (imageData : SupabaseImageData) (options : ResponderOptions)
  (tr : list Event) (e : Exn) :
  loadImageSafely_try engine supabaseClient imageData options = (tr, inr e) ->
  afterSuccessHead (fst (loadImageSafely engine supabaseClient imageData options)) = None.
Proof.
  intros Htry.
  rewrite (loadImageSafely_failure _ _ _ _ _ _ Htry). cbn [fst].
  unfold hookCalls.
  destruct (try_failure_trace _ _ _ _ _ _ Htry) as [-> | ->];
    destruct (onError options) as [f|];
    destruct (JsString.includes (exnToString e) "Image not found");
    destruct (truthy (useTransparentImageFallback options));
    reflexivity.
Qed.

(** C10: when the responder has written the 200 head, the rest of the trace
    is the streaming phase only: the pipe, the chunks, and the end of the
    response if the stream ends.  Nothing the [catch] block could cause
    occurs anywhere in the trace, and the returned promise never rejects: it
    resolves when the stream ends and stays pending when the stream fails. *)
Theorem success_head_excludes_error_output
  (engine : SharpEngine) (supabaseClient : SupabaseClient)
  (imageData : SupabaseImageData) (options : ResponderOptions)
  (rest : list Event) :
  afterSuccessHead (fst (loadImageSafely engine supabaseClient imageData options))
  = Some rest ->
  exists pre streamable,
    getStreamableImage engine supabaseClient imageData options = (pre, inl streamable) /\
    rest = streamEvents engine streamable /\
    Forall (fun ev => isStreaming ev = true) rest /\
    Forall (fun ev => isErrorOutput ev = false)
           (fst (loadImageSafely engine supabaseClient imageData options)) /\
    snd (loadImageSafely engine supabaseClient imageData options)
    = inl match finish (render engine streamable) with
          | Ended => Resolved
          | Failed _ => Pending
          end.
Proof.
  intros Hhead.
  destruct (loadImageSafely_try engine supabaseClient imageData options)
    as [tr [v | e]] eqn:Htry.
  - destruct (try_success_inv _ _ _ _ _ _ Htry) as [pre [s [Hget [Hpre [-> ->]]]]].
    assert (Hrun : loadImageSafely engine supabaseClient imageData options
                   = ((pre ++ EvWriteHead 200 (successHeaders options)
                           :: streamEvents engine s)%list,
                      inl (streamSettlement engine s))).
    { unfold loadImageSafely, tryCatch. rewrite Htry. reflexivity. }
    rewrite Hrun in Hhead |- *. cbn [fst snd] in *.
    assert (Hrest : rest = streamEvents engine s).
    { destruct Hpre as [-> | ->]; simpl in Hhead; congruence. }
    exists pre, s. split; [exact Hget|]. split; [exact Hrest|].
    split; [rewrite Hrest; apply streamEvents_streaming|].
    split; [|reflexivity].
    apply Forall_app; split.
    + destruct Hpre as [-> | ->]; repeat constructor.
    + constructor; [reflexivity|].
      eapply Forall_impl; [|apply streamEvents_streaming].
      intros ev. apply streaming_not_error.
  - rewrite (failure_has_no_success_head _ _ _ _ _ _ Htry) in Hhead. discriminate.
Qed.

Lemma success_head_excludes_error_output_witness :
  afterSuccessHead
    (fst (loadImageSafely (sampleEngine 100 50 (Failed (Thrown "VipsJpeg: premature end")))
            (deliveringClient sampleBlob) photo
            (respondWith THUMBNAIL_IMAGE_LOADER_OPTIONS (Some true))))
  = Some [EvPipe (Sharp.mk sampleBlob [Sharp.Jpeg 60 (Some true)]);
          EvWrite [Byte.xff; Byte.xd8]; EvWrite [Byte.xff; Byte.xd9]]
  /\ snd (loadImageSafely (sampleEngine 100 50 (Failed (Thrown "VipsJpeg: premature end")))
            (deliveringClient sampleBlob) photo
            (respondWith THUMBNAIL_IMAGE_LOADER_OPTIONS (Some true)))
     = inl Pending.
Proof.
  split; [reflexivity|].
  destruct (success_head_excludes_error_output
              (sampleEngine 100 50 (Failed (Thrown "VipsJpeg: premature end")))
              (deliveringClient sampleBlob) photo
              (respondWith THUMBNAIL_IMAGE_LOADER_OPTIONS (Some true))
              _ eq_refl)
    as [pre [s [Hget [_ [_ [_ Hsnd]]]]]].
  rewrite Hsnd. reflexivity.
Defined.

(** The head of every successful response: status 200, Content-Type
    image/jpg and a Cache-Control built from [standardCacheTime] as given. *)
Lemma success_response_head
  (engine : SharpEngine) (supabaseClient : SupabaseClient)
  (imageData : SupabaseImageData) (options : ResponderOptions)
  (tr : list Event) (v : Settlement) :
  loadImageSafely_try engine supabaseClient imageData options = (tr, inl v) ->
  loadImageSafely engine supabaseClient imageData options = (tr, inl v) /\
  responseStatus tr = Some 200%Z /\
  exists pre rest,
    tr = (pre ++ EvWriteHead 200 (successHeaders options) :: rest)%list /\
    getHeader "Content-Type" (successHeaders options) = Some (HStr "image/jpg") /\
    getHeader "Cache-Control" (successHeaders options)
    = Some (HStr ("max-age=" ++ match standardCacheTime options with
                                | Some t => JsNumber.toString t
                                | None => "undefined"
                                end)).
Proof.
  intros Htry.
  destruct (try_success_inv _ _ _ _ _ _ Htry) as [pre [s [_ [Hpre [Htr _]]]]].
  split; [unfold loadImageSafely, tryCatch; now rewrite Htry|].
  split.
  - rewrite Htr. now rewrite (responseStatus_after_downloads imageData pre _ Hpre).
  - exists pre, (streamEvents engine s). split; [exact Htr|]. split; reflexivity.
Qed.

Example preset_cache_header :
  STANDARD_CACHE_TIME = 432000%Z /\
  getHeader "Cache-Control"
    (successHeaders (respondWith THUMBNAIL_IMAGE_LOADER_OPTIONS None))
  = Some (HStr "max-age=432000") /\
  getHeader "Cache-Control"
    (successHeaders (respondWith FULL_IMAGE_LOADER_OPTIONS None))
  = Some (HStr "max-age=432000").
Proof. repeat split; reflexivity. Qed.

(** C4: the five-day constant is 432000 seconds and the presets carry it,
    but it is not applied as a default.  For options that leave
    [standardCacheTime] out, a successful response has status 200 and
    Content-Type image/jpg, and its Cache-Control reads max-age=undefined
    instead of max-age=432000. *)
Theorem omitted_cache_time_sends_undefined :
  standardCacheTime bareOptions = None /\
  STANDARD_CACHE_TIME = 432000%Z /\
  loadImageSafely (sampleEngine 100 50 Ended) (deliveringClient sampleBlob) photo
    (respondWith bareOptions None)
  = ([EvDownload "imgs" "photo.PNG";
      EvWriteHead 200
        [("Content-Type", HStr "image/jpg");
         ("Cache-control", HStr "max-age=undefined")];
      EvPipe (Sharp.mk sampleBlob [Sharp.Jpeg 60 None]);
      EvWrite [Byte.xff; Byte.xd8]; EvWrite [Byte.xff; Byte.xd9];
      EvEnd None],
     inl Resolved) /\
  getHeader "Cache-Control" (successHeaders (respondWith bareOptions None))
  <> Some (HStr ("max-age=" ++ JsNumber.toString STANDARD_CACHE_TIME)).
Proof.
  split; [reflexivity|]. split; [reflexivity|]. split; [reflexivity|].
  discriminate.
Qed.

(** ** The transcoder *)

Lemma getStreamableImage_decoded
  (engine : SharpEngine) (supabaseClient : SupabaseClient)
  (imageData : SupabaseImageData) (options : ImageLoaderOptions)
  (blob : list Byte.byte) (meta : Sharp.Metadata) (w : Z) :
  Decoded engine supabaseClient imageData blob meta w ->
  getStreamableImage engine supabaseClient imageData options
  = ([EvDownload (bucket imageData) (path imageData)],
     if overBudget options (byteLength blob) w
     then
       if (0 <? resizeTarget options (byteLength blob) w)%Z
       then inl (Sharp.mk blob
                   ([Sharp.Rotate;
                     Sharp.Resize (resizeTarget options (byteLength blob) w)]
                    ++ encodingCalls options)%list)
       else inr (Sharp.invalidWidth (resizeTarget options (byteLength blob) w))
     else inl (Sharp.mk blob (encodingCalls options))).
Proof.
  intros (Htype & Hdown & Hblob & Hmeta & Hw & Hw0).
  unfold getStreamableImage.
  rewrite (eqb_unknown_false _ Htype).
  unfold loadImageFromSupabase, sharp, bind, emit, lift, ret, throw.
  rewrite Hdown. cbn [error data app].
  destruct blob as [|x blob]; [congruence|]. cbn [app].
  rewrite Hmeta. cbn [app]. rewrite Hw.
  apply Z.eqb_neq in Hw0. rewrite Hw0.
  fold (overBudget options (byteLength (x :: blob)) w).
  destruct (overBudget options (byteLength (x :: blob)) w).
  - fold (resizeTarget options (byteLength (x :: blob)) w).
    unfold Sharp.resize.
    destruct (0 <? resizeTarget options (byteLength (x :: blob)) w)%Z.
    + unfold encodingCalls, Sharp.jpeg, Sharp.sharpen, Sharp.rotate.
      cbn [Sharp.input Sharp.calls app].
      destruct (truthy (sharpen options)); reflexivity.
    + reflexivity.
  - unfold encodingCalls, Sharp.jpeg, Sharp.sharpen.
    cbn [Sharp.input Sharp.calls app].
    destruct (truthy (sharpen options)); reflexivity.
Qed.

Lemma resizeWidth_encodingCalls (options : ImageLoaderOptions) :
  Sharp.resizeWidth (encodingCalls options) = None.
Proof. unfold encodingCalls. destruct (truthy (sharpen options)); reflexivity. Qed.

Lemma rotate_not_in_encodingCalls (options : ImageLoaderOptions) :
  existsb Sharp.isRotate (encodingCalls options) = false.
Proof. unfold encodingCalls. destruct (truthy (sharpen options)); reflexivity. Qed.

Lemma outputFormat_encodingCalls (options : ImageLoaderOptions) (pre : list Sharp.Call) :
  Sharp.outputFormat (pre ++ encodingCalls options)
  = Some (quality options, progressive options).
Proof.
  unfold encodingCalls. induction pre as [|c pre IH]; simpl.
  - destruct (truthy (sharpen options)); reflexivity.
  - now rewrite IH.
Qed.

Lemma budget_test_false (b mb w mw : Z) :
  (b <= mb)%Z -> (w <= mw)%Z -> ((b >? mb)%Z || (w >? mw)%Z)%bool = false.
Proof.
  intros Hb Hw. rewrite !Z.gtb_ltb. apply orb_false_iff.
  split; apply Z.ltb_ge; lia.
Qed.

Lemma budget_test_true (b mb w mw : Z) :
  ((b >? mb)%Z || (w >? mw)%Z)%bool = true <-> (b > mb \/ w > mw)%Z.
Proof.
  rewrite orb_true_iff, !Z.gtb_ltb, !Z.ltb_lt. lia.
Qed.

(** C5: an image that fits both budgets is not resized: the pipeline is the
    optional sharpening followed by the JPEG encoding at the requested
    quality and progressive setting, and the encoded width is the decoded
    width. *)
Theorem within_budget_image_not_resized
  (engine : SharpEngine) (supabaseClient : SupabaseClient)
  (imageData : SupabaseImageData) (options : ImageLoaderOptions)
  (blob : list Byte.byte) (meta : Sharp.Metadata) (w : Z) :
  Decoded engine supabaseClient imageData blob meta w ->
  (byteLength blob <= maxSizeBytes options)%Z ->
  (w <= maxSizeWidth options)%Z ->
  exists streamable,
    getStreamableImage engine supabaseClient imageData options
    = ([EvDownload (bucket imageData) (path imageData)], inl streamable) /\
    Sharp.input streamable = blob /\
    Sharp.calls streamable
    = ((if truthy (sharpen options) then [Sharp.Sharpen (9 # 10)] else [])
       ++ [Sharp.Jpeg (quality options) (progressive options)])%list /\
    Sharp.resizeWidth (Sharp.calls streamable) = None /\
    Sharp.outputFormat (Sharp.calls streamable)
    = Some (quality options, progressive options) /\
    Sharp.outputWidth meta streamable = Some w.
Proof.
  intros Hdec Hb Hw.
  rewrite (getStreamableImage_decoded _ _ _ options _ _ _ Hdec).
  unfold overBudget. rewrite (budget_test_false _ _ _ _ Hb Hw).
  eexists. split; [reflexivity|]. cbn [Sharp.input Sharp.calls].
  split; [reflexivity|]. split; [reflexivity|].
  split; [apply resizeWidth_encodingCalls|].
  split; [apply (outputFormat_encodingCalls options [])|].
  unfold Sharp.outputWidth. cbn [Sharp.calls].
  rewrite resizeWidth_encodingCalls, rotate_not_in_encodingCalls.
  destruct Hdec as (_ & _ & _ & _ & Hwidth & _). exact Hwidth.
Qed.

Lemma within_budget_image_not_resized_witness :
  Decoded (sampleEngine 100 50 Ended) (deliveringClient sampleBlob) photo
    sampleBlob (sampleMeta 100 50 None) 100
  /\ (byteLength sampleBlob <= maxSizeBytes THUMBNAIL_IMAGE_LOADER_OPTIONS)%Z
  /\ (100 <= maxSizeWidth THUMBNAIL_IMAGE_LOADER_OPTIONS)%Z
  /\ exists streamable,
       getStreamableImage (sampleEngine 100 50 Ended) (deliveringClient sampleBlob)
         photo THUMBNAIL_IMAGE_LOADER_OPTIONS
       = ([EvDownload "imgs" "photo.PNG"], inl streamable)
       /\ Sharp.calls streamable = [Sharp.Jpeg 60 (Some true)]
       /\ Sharp.outputWidth (sampleMeta 100 50 None) streamable = Some 100%Z.
Proof.
  assert (Hdec : Decoded (sampleEngine 100 50 Ended) (deliveringClient sampleBlob)
                   photo sampleBlob (sampleMeta 100 50 None) 100).
  { repeat split; try reflexivity; discriminate. }
  assert (Hb : (byteLength sampleBlob <= maxSizeBytes THUMBNAIL_IMAGE_LOADER_OPTIONS)%Z).
  { vm_compute. discriminate. }
  assert (Hw : (100 <= maxSizeWidth THUMBNAIL_IMAGE_LOADER_OPTIONS)%Z).
  { vm_compute. discriminate. }
  split; [exact Hdec|]. split; [exact Hb|]. split; [exact Hw|].
  destruct (within_budget_image_not_resized _ _ _ _ _ _ _ Hdec Hb Hw)
    as [s [Hget [_ [Hcalls [_ [_ Hout]]]]]].
  exists s. split; [exact Hget|]. split; [exact Hcalls | exact Hout].
Defined.



(** ** Numbers *)

Section NumberFacts.

Import JsNumber.
Local Open Scope Q_scope.

Lemma inject_Z_pos (m : Z) : (0 < m)%Z -> 0 < inject_Z m.
Proof. intros H. unfold Qlt. simpl. lia. Qed.

Lemma pow2_pos (e : Z) : 0 < 2 ^ e.
Proof. apply Qpower_0_lt. reflexivity. Qed.

Lemma pow2_add (a b : Z) : 2 ^ (a + b) == 2 ^ a * 2 ^ b.
Proof. apply Qpower_plus. discriminate. Qed.

Lemma pow2_le (a b : Z) : (a <= b)%Z -> 2 ^ a <= 2 ^ b.
Proof. intros H. apply Qpower_le_compat_l; [exact H | discriminate]. Qed.

Lemma pow2_Z (n : Z) : (0 <= n)%Z -> inject_Z (2 ^ n) == 2 ^ n.
Proof. intros H. now rewrite Zpower_Qpower. Qed.

(** The binary exponent brackets a positive number. *)
Lemma ilog2_spec (x : Q) :
  0 < x -> 2 ^ ilog2 x <= x /\ x < 2 ^ (ilog2 x + 1).
Proof.
  intros Hx. unfold ilog2.
  destruct x as [n d]. cbn [Qnum Qden].
  assert (Hn : (0 < n)%Z).
  { unfold Qlt in Hx. simpl in Hx. lia. }
  set (a := Z.log2 n). set (b := Z.log2 (Zpos d)).
  destruct (Z.log2_spec n Hn) as [Ha1 Ha2]. fold a in Ha1, Ha2.
  destruct (Z.log2_spec (Zpos d) (Pos2Z.is_pos d)) as [Hb1 Hb2]. fold b in Hb1, Hb2.
  assert (Ha0 : (0 <= a)%Z) by apply Z.log2_nonneg.
  assert (Hb0 : (0 <= b)%Z) by apply Z.log2_nonneg.
  assert (HD : 0 < inject_Z (Zpos d)) by reflexivity.
  assert (Hxd : (n # d) * inject_Z (Zpos d) == inject_Z n).
  { rewrite (Qmake_Qdiv n d). field. discriminate. }
  (* the integer brackets, as rationals *)
  rewrite Zle_Qle, pow2_Z in Ha1 by lia.
  rewrite Zlt_Qlt, pow2_Z in Ha2 by lia.
  rewrite Zle_Qle, pow2_Z in Hb1 by lia.
  rewrite Zlt_Qlt, pow2_Z in Hb2 by lia.
  replace (Z.succ a) with (a + 1)%Z in Ha2 by lia.
  replace (Z.succ b) with (b + 1)%Z in Hb2 by lia.
  assert (Hupper : (n # d) < 2 ^ (a - b + 1)).
  { apply (Qmult_lt_r _ _ _ HD). rewrite Hxd.
    apply Qlt_le_trans with (2 ^ (a + 1)); [exact Ha2|].
    replace (a + 1)%Z with ((a - b + 1) + b)%Z by lia.
    rewrite pow2_add. apply Qmult_le_l; [apply pow2_pos | exact Hb1]. }
  assert (Hlower : 2 ^ (a - b - 1) < (n # d)).
  { apply (Qmult_lt_r _ _ _ HD). rewrite Hxd.
    apply Qlt_le_trans with (2 ^ a); [|exact Ha1].
    replace a with ((a - b - 1) + (b + 1))%Z at 2 by lia.
    rewrite pow2_add. apply Qmult_lt_l; [apply pow2_pos | exact Hb2]. }
  destruct (Qle_bool (2 ^ (a - b)) (n # d)) eqn:Hk.
  - apply Qle_bool_iff in Hk. split; [exact Hk | exact Hupper].
  - split; [apply Qlt_le_weak; exact Hlower|].
    replace (a - b - 1 + 1)%Z with (a - b)%Z by lia.
    apply Qnot_le_lt. intros Hle. apply Qle_bool_iff in Hle. congruence.
Qed.

Lemma ilog2_unique (x : Q) (e : Z) :
  2 ^ e <= x -> x < 2 ^ (e + 1) -> ilog2 x = e.
Proof.
  intros Hlo Hhi.
  assert (Hx : 0 < x) by (apply Qlt_le_trans with (2 ^ e); [apply pow2_pos | exact Hlo]).
  destruct (ilog2_spec x Hx) as [Slo Shi].
  destruct (Z.lt_trichotomy (ilog2 x) e) as [H | [H | H]]; [exfalso | exact H | exfalso].
  - assert (Hp : 2 ^ (ilog2 x + 1) <= 2 ^ e) by (apply pow2_le; lia). lra.
  - assert (Hp : 2 ^ (e + 1) <= 2 ^ ilog2 x) by (apply pow2_le; lia). lra.
Qed.

Lemma ilog2_mono (x y : Q) : 0 < x -> x <= y -> (ilog2 x <= ilog2 y)%Z.
Proof.
  intros Hx Hxy.
  assert (Hy : 0 < y) by lra.
  destruct (ilog2_spec x Hx) as [Xlo Xhi]. destruct (ilog2_spec y Hy) as [Ylo Yhi].
  destruct (Z.le_gt_cases (ilog2 x) (ilog2 y)) as [H | H]; [exact H | exfalso].
  assert (Hp : 2 ^ (ilog2 y + 1) <= 2 ^ ilog2 x) by (apply pow2_le; lia). lra.
Qed.


(** *** Rounding to the nearest integer *)

Lemma rne_floor (q : Q) : (Qfloor q <= rne q <= Qfloor q + 1)%Z.
Proof.
  unfold rne. destruct (Qcompare _ _); [destruct (Z.even _) | |]; lia.
Qed.

Lemma rne_close (q : Q) :
  q - (1 # 2) <= inject_Z (rne q) /\ inject_Z (rne q) <= q + (1 # 2).
Proof.
  pose proof (Qfloor_le q) as Hlo. pose proof (Qlt_floor q) as Hhi.
  rewrite inject_Z_plus in Hhi. change (inject_Z 1) with 1 in Hhi.
  unfold rne.
  destruct (Qcompare_spec (q - inject_Z (Qfloor q)) (1 # 2)) as [H | H | H].
  - destruct (Z.even (Qfloor q)).
    + split; lra.
    + rewrite inject_Z_plus. change (inject_Z 1) with 1. split; lra.
  - split; lra.
  - rewrite inject_Z_plus. change (inject_Z 1) with 1. split; lra.
Qed.

Lemma rne_mono (p q : Q) : p <= q -> (rne p <= rne q)%Z.
Proof.
  intros Hpq.
  pose proof (Qfloor_resp_le p q Hpq) as Hf.
  destruct (Z.eq_dec (Qfloor p) (Qfloor q)) as [He | Hne].
  - unfold rne. rewrite He.
    destruct (Qcompare_spec (p - inject_Z (Qfloor q)) (1 # 2)) as [Hp | Hp | Hp];
      destruct (Qcompare_spec (q - inject_Z (Qfloor q)) (1 # 2)) as [Hq | Hq | Hq];
      destruct (Z.even (Qfloor q)); try lia; exfalso; lra.
  - pose proof (rne_floor p). pose proof (rne_floor q). lia.
Qed.

Lemma rne_compat (p q : Q) : p == q -> rne p = rne q.
Proof.
  intros H. apply Z.le_antisymm; apply rne_mono; rewrite H; apply Qle_refl.
Qed.

Lemma rne_Z (k : Z) : rne (inject_Z k) = k.
Proof.
  unfold rne. rewrite Qfloor_Z.
  destruct (Qcompare_spec (inject_Z k - inject_Z k) (1 # 2)) as [H | H | H].
  - exfalso. lra.
  - reflexivity.
  - exfalso. lra.
Qed.

(** *** Rounding to 53 bits *)

Lemma Qabs_of_pos (x : Q) : 0 < x -> Qabs x = x.
Proof.
  destruct x as [n d]. unfold Qlt. simpl. intros H.
  rewrite Z.abs_eq by lia. reflexivity.
Qed.

Lemma round53_pos (x : Q) :
  0 < x ->
  round53 x = inject_Z (rne (x / 2 ^ (ilog2 x - 52))) * 2 ^ (ilog2 x - 52).
Proof.
  intros Hx. unfold round53.
  destruct (Qeq_bool x 0) eqn:Hz.
  - apply Qeq_bool_iff in Hz. exfalso. lra.
  - now rewrite (Qabs_of_pos x Hx).
Qed.

(** The scaled significand of a positive number lies in [2^52, 2^53). *)
Lemma significand_range (x : Q) :
  0 < x ->
  2 ^ 52 <= x / 2 ^ (ilog2 x - 52) /\ x / 2 ^ (ilog2 x - 52) < 2 ^ 53.
Proof.
  intros Hx. destruct (ilog2_spec x Hx) as [Hlo Hhi].
  pose proof (pow2_pos (ilog2 x - 52)) as Hs.
  assert (H52 : 2 ^ ilog2 x == 2 ^ 52 * 2 ^ (ilog2 x - 52)).
  { rewrite <- pow2_add. now replace (52 + (ilog2 x - 52))%Z with (ilog2 x) by lia. }
  assert (H53 : 2 ^ (ilog2 x + 1) == 2 ^ 53 * 2 ^ (ilog2 x - 52)).
  { rewrite <- pow2_add. now replace (53 + (ilog2 x - 52))%Z with (ilog2 x + 1)%Z by lia. }
  split.
  - apply (Qmult_le_r _ _ _ Hs).
    setoid_replace (x / 2 ^ (ilog2 x - 52) * 2 ^ (ilog2 x - 52)) with x
      by (field; lra).
    rewrite <- H52. exact Hlo.
  - apply (Qmult_lt_r _ _ _ Hs).
    setoid_replace (x / 2 ^ (ilog2 x - 52) * 2 ^ (ilog2 x - 52)) with x
      by (field; lra).
    rewrite <- H53. exact Hhi.
Qed.

(** A rounded positive number stays within its binade. *)
Lemma round53_binade (x : Q) :
  0 < x -> 2 ^ ilog2 x <= round53 x /\ round53 x <= 2 ^ (ilog2 x + 1).
Proof.
  intros Hx. rewrite (round53_pos x Hx).
  destruct (significand_range x Hx) as [Hlo Hhi].
  pose proof (pow2_pos (ilog2 x - 52)) as Hs.
  assert (H1 : (2 ^ 52 <= rne (x / 2 ^ (ilog2 x - 52)))%Z).
  { rewrite <- (rne_Z (2 ^ 52)). apply rne_mono.
    rewrite pow2_Z by lia. exact Hlo. }
  assert (H2 : (rne (x / 2 ^ (ilog2 x - 52)) <= 2 ^ 53)%Z).
  { rewrite <- (rne_Z (2 ^ 53)). apply rne_mono.
    rewrite pow2_Z by lia. apply Qlt_le_weak. exact Hhi. }
  rewrite Zle_Qle, pow2_Z in H1 by lia.
  rewrite Zle_Qle, pow2_Z in H2 by lia.
  split.
  - replace (ilog2 x) with (52 + (ilog2 x - 52))%Z at 1 by lia.
    rewrite pow2_add. apply Qmult_le_compat_r; [exact H1 | lra].
  - replace (ilog2 x + 1)%Z with (53 + (ilog2 x - 52))%Z by lia.
    rewrite pow2_add. apply Qmult_le_compat_r; [exact H2 | lra].
Qed.

Lemma round53_positive (x : Q) : 0 < x -> 0 < round53 x.
Proof.
  intros Hx. destruct (round53_binade x Hx) as [H _].
  pose proof (pow2_pos (ilog2 x)). lra.
Qed.

(** Rounding is monotone on positive numbers. *)
Lemma round53_mono (x y : Q) : 0 < x -> x <= y -> round53 x <= round53 y.
Proof.
  intros Hx Hxy. assert (Hy : 0 < y) by lra.
  pose proof (ilog2_mono x y Hx Hxy) as He.
  destruct (Z.eq_dec (ilog2 x) (ilog2 y)) as [Heq | Hne].
  - rewrite (round53_pos x Hx), (round53_pos y Hy), Heq.
    pose proof (pow2_pos (ilog2 y - 52)) as Hs.
    apply Qmult_le_compat_r; [|lra].
    rewrite <- Zle_Qle. apply rne_mono.
    apply Qmult_le_compat_r; [exact Hxy|].
    apply Qlt_le_weak, Qinv_lt_0_compat, Hs.
  - destruct (round53_binade x Hx) as [_ Hxh].
    destruct (round53_binade y Hy) as [Hyl _].
    assert (Hp : 2 ^ (ilog2 x + 1) <= 2 ^ ilog2 y) by (apply pow2_le; lia).
    lra.
Qed.

Lemma round53_compat (x y : Q) : 0 < x -> x == y -> round53 x == round53 y.
Proof.
  intros Hx Hxy. assert (Hy : 0 < y) by lra.
  apply Qle_antisym; apply round53_mono; lra.
Qed.

(** The relative error of rounding is at most [2^-53]. *)
Lemma round53_upper (x : Q) : 0 < x -> round53 x <= x * (1 + 2 ^ (-53)).
Proof.
  intros Hx. rewrite (round53_pos x Hx).
  destruct (ilog2_spec x Hx) as [Hlo _].
  pose proof (pow2_pos (ilog2 x - 52)) as Hs.
  destruct (rne_close (x / 2 ^ (ilog2 x - 52))) as [_ Hr].
  apply Qle_trans with ((x / 2 ^ (ilog2 x - 52) + (1 # 2)) * 2 ^ (ilog2 x - 52)).
  - apply Qmult_le_compat_r; [exact Hr | lra].
  - setoid_replace ((x / 2 ^ (ilog2 x - 52) + (1 # 2)) * 2 ^ (ilog2 x - 52))
      with (x + (1 # 2) * 2 ^ (ilog2 x - 52)) by (field; lra).
    assert (Hhalf : (1 # 2) * 2 ^ (ilog2 x - 52) == 2 ^ ilog2 x * 2 ^ (-53)).
    { rewrite <- pow2_add.
      replace (ilog2 x + -53)%Z with ((ilog2 x - 52) + -1)%Z by lia.
      rewrite pow2_add. change (2 ^ (-1)) with (/ 2). field. }
    rewrite Hhalf.
    pose proof (pow2_pos (-53)) as Hu.
    assert (2 ^ ilog2 x * 2 ^ (-53) <= x * 2 ^ (-53)).
    { apply Qmult_le_compat_r; [exact Hlo | lra]. }
    lra.
Qed.

(** A number with a 53-bit significand is its own rounding. *)
Lemma round53_exact (m e : Z) :
  (0 < m < 2 ^ 53)%Z -> round53 (inject_Z m * 2 ^ e) == inject_Z m * 2 ^ e.
Proof.
  intros [Hm0 Hm].
  set (L := Z.log2 m).
  destruct (Z.log2_spec m Hm0) as [HL1 HL2]. fold L in HL1, HL2.
  assert (HL0 : (0 <= L)%Z) by apply Z.log2_nonneg.
  assert (HL : (L <= 52)%Z).
  { assert (L < 53)%Z; [|lia]. apply Z.log2_lt_pow2; [lia | exact Hm]. }
  pose proof (pow2_pos e) as He.
  assert (Hmq : 0 < inject_Z m) by (apply inject_Z_pos; exact Hm0).
  assert (Hx : 0 < inject_Z m * 2 ^ e) by (apply Qmult_lt_0_compat; assumption).
  rewrite Zle_Qle, pow2_Z in HL1 by lia.
  rewrite Zlt_Qlt, pow2_Z in HL2 by lia.
  replace (Z.succ L) with (L + 1)%Z in HL2 by lia.
  assert (Hlog : ilog2 (inject_Z m * 2 ^ e) = (L + e)%Z).
  { apply ilog2_unique.
    - rewrite pow2_add. apply Qmult_le_compat_r; [exact HL1 | lra].
    - replace (L + e + 1)%Z with ((L + 1) + e)%Z by lia.
      rewrite pow2_add. apply Qmult_lt_r; [exact He | exact HL2]. }
  rewrite (round53_pos _ Hx), Hlog.
  pose proof (pow2_pos (L + e - 52)) as Hs.
  assert (Hscaled : inject_Z m * 2 ^ e / 2 ^ (L + e - 52)
                    == inject_Z (m * 2 ^ (52 - L))).
  { rewrite inject_Z_mult, pow2_Z by lia.
    replace e with ((L + e - 52) + (52 - L))%Z at 1 by lia.
    rewrite pow2_add. field. lra. }
  rewrite (rne_compat _ _ Hscaled), rne_Z.
  rewrite inject_Z_mult, pow2_Z by lia.
  rewrite <- Qmult_assoc, <- pow2_add.
  now replace (52 - L + (L + e - 52))%Z with e by lia.
Qed.

Lemma round53_integer (m : Z) :
  (0 < m < 2 ^ 53)%Z -> round53 (inject_Z m) == inject_Z m.
Proof.
  intros Hm. pose proof (round53_exact m 0 Hm) as H.
  change (2 ^ 0) with 1 in H.
  assert (Hmq : 0 < inject_Z m) by (apply inject_Z_pos; lia).
  rewrite <- (round53_compat (inject_Z m * 1) (inject_Z m)); [|lra|ring].
  rewrite H. ring.
Qed.


(** *** [Math.round] *)

Lemma mathRound_le (x : Q) (k : Z) :
  x < inject_Z k + (1 # 2) -> (mathRound x <= k)%Z.
Proof.
  intros H. unfold mathRound.
  pose proof (Qfloor_le (x + (1 # 2))) as Hlo.
  assert (H1 : inject_Z (Qfloor (x + (1 # 2))) < inject_Z (k + 1)).
  { rewrite inject_Z_plus. change (inject_Z 1) with 1. lra. }
  rewrite <- Zlt_Qlt in H1. lia.
Qed.

Lemma mathRound_nonneg (x : Q) : 0 <= x -> (0 <= mathRound x)%Z.
Proof.
  intros H. unfold mathRound.
  change 0%Z with (Qfloor 0). apply Qfloor_resp_le. lra.
Qed.


(** *** The width asked of the encoder *)

Section ResizeTarget.

Variables w b mb mw : Z.
Hypothesis w_range : (0 < w < 2 ^ 53)%Z.
Hypothesis b_pos : (0 < b)%Z.
Hypothesis mb_pos : (0 < mb)%Z.
Hypothesis mw_range : (0 < mw < 2 ^ 51)%Z.

Let widthRatio : Q := mathMin 1 (div (ofZ mw) (ofZ w)).
Let byteRatio : Q := mathMin 1 (div (ofZ mb) (ofZ b)).
Let factor : Q := mathMin widthRatio byteRatio.

Lemma quotient_pos (n d : Z) : (0 < n)%Z -> (0 < d)%Z -> 0 < inject_Z n / inject_Z d.
Proof.
  intros Hn Hd. apply Qlt_shift_div_l; [now apply inject_Z_pos|].
  rewrite Qmult_0_l. now apply inject_Z_pos.
Qed.

Lemma factor_range : 0 < factor /\ factor <= 1 /\ factor <= div (ofZ mw) (ofZ w).
Proof.
  unfold factor, widthRatio, byteRatio, mathMin, div, ofZ.
  pose proof (round53_positive _ (quotient_pos mw w ltac:(lia) ltac:(lia))) as Hw.
  pose proof (round53_positive _ (quotient_pos mb b mb_pos b_pos)) as Hb.
  repeat split.
  - repeat apply Q.min_glb_lt; try assumption; reflexivity.
  - eapply Qle_trans; [apply Q.le_min_l | apply Q.le_min_l].
  - eapply Qle_trans; [apply Q.le_min_l | apply Q.le_min_r].
Qed.

(** The scaled width never exceeds the original width. *)
Lemma scaled_width_le_original : mul (ofZ w) factor <= inject_Z w.
Proof.
  destruct factor_range as (Hpos & Hone & _).
  pose proof (inject_Z_pos w ltac:(lia)) as HW.
  pose proof (round53_integer w w_range) as Hexact.
  assert (Hmono : round53 (inject_Z w * factor) <= round53 (inject_Z w)).
  { apply round53_mono.
    - apply Qmult_lt_0_compat; assumption.
    - rewrite <- (Qmult_1_r (inject_Z w)) at 2.
      apply Qmult_le_l; assumption. }
  unfold mul, ofZ. lra.
Qed.

(** When the image is wider than the budget, the scaled width exceeds the
    budget by less than a half. *)
Lemma scaled_width_le_budget :
  (mw < w)%Z -> mul (ofZ w) factor <= inject_Z mw + (1 # 4).
Proof.
  intros Hlt.
  destruct factor_range as (Hpos & _ & Hfw).
  pose proof (inject_Z_pos w ltac:(lia)) as HW.
  pose proof (inject_Z_pos mw ltac:(lia)) as HMW.
  pose proof (round53_upper _ (quotient_pos mw w ltac:(lia) ltac:(lia))) as Herr.
  unfold div, ofZ in Hfw.
  assert (Hquarter : inject_Z (4 * mw + 1) * 2 ^ (-2) == inject_Z mw + (1 # 4)).
  { rewrite inject_Z_plus, inject_Z_mult. change (2 ^ (-2)) with (1 # 4).
    change (inject_Z 4) with 4. change (inject_Z 1) with 1. ring. }
  assert (Hexact : round53 (inject_Z mw + (1 # 4)) == inject_Z mw + (1 # 4)).
  { assert (Hpos4 : 0 < inject_Z (4 * mw + 1) * 2 ^ (-2)).
    { apply Qmult_lt_0_compat; [apply inject_Z_pos; lia | apply pow2_pos]. }
    pose proof (round53_compat _ _ Hpos4 Hquarter) as Hc.
    pose proof (round53_exact (4 * mw + 1) (-2) ltac:(lia)) as He.
    lra. }
  assert (Hmono : round53 (inject_Z w * factor)
                  <= round53 (inject_Z mw + (1 # 4))); [|unfold mul, ofZ; lra].
  apply round53_mono.
  - apply Qmult_lt_0_compat; assumption.
  - apply Qle_trans with (inject_Z w * (inject_Z mw / inject_Z w * (1 + 2 ^ (-53)))).
    + apply Qmult_le_l; [exact HW|]. lra.
    + setoid_replace (inject_Z w * (inject_Z mw / inject_Z w * (1 + 2 ^ (-53))))
        with (inject_Z mw + inject_Z mw * 2 ^ (-53)) by (field; lra).
      assert (Hmw : inject_Z mw <= 2 ^ 51).
      { rewrite <- pow2_Z by lia. rewrite <- Zle_Qle. lia. }
      assert (Hu : inject_Z mw * 2 ^ (-53) <= 2 ^ 51 * 2 ^ (-53)).
      { apply Qmult_le_compat_r; [exact Hmw|]. apply Qlt_le_weak, pow2_pos. }
      rewrite <- pow2_add in Hu. change (2 ^ (51 + -53)) with (1 # 4) in Hu.
      lra.
Qed.

Lemma resize_target_bounds :
  (0 <= mathRound (mul (ofZ w) factor) <= w)%Z /\
  ((mw < w)%Z -> (mathRound (mul (ofZ w) factor) <= mw)%Z).
Proof.
  destruct factor_range as (Hpos & _ & _).
  pose proof (inject_Z_pos w ltac:(lia)) as HW.
  pose proof scaled_width_le_original as Horig.
  split; [split|].
  - apply mathRound_nonneg. apply Qlt_le_weak.
    unfold mul, ofZ. apply round53_positive.
    apply Qmult_lt_0_compat; assumption.
  - apply mathRound_le. lra.
  - intros Hlt. apply mathRound_le.
    pose proof (scaled_width_le_budget Hlt). lra.
Qed.


End ResizeTarget.

End NumberFacts.

(** ** The resize *)




(** ** The number model against IEEE 754 binary64 *)

Example round53_is_binary64_on_samples :
  Binary64.agrees 3000 120 3000 = true /\
  Binary64.agrees 3000 204800 512000 = true /\
  Binary64.agrees 3 1 6 = true /\
  Binary64.agrees 2501 2500 2501 = true /\
  Binary64.agrees 4032 1024000 7340032 = true /\
  Binary64.agrees 9007199254740991 2251799813685247 9007199254740991 = true.
Proof. vm_compute. repeat split. Qed.

Example round53_is_binary64_on_grid : Binary64.agreesOnGrid 16 = true.
Proof. vm_compute. reflexivity. Qed.

(** The scenario of a 500 KB image, 3000 pixels wide, under the thumbnail
    preset: the pipeline asks for a width of 120. *)
Example thumbnail_scenario :
  let blob := repeat Byte.xff (N.to_nat 512000) in
  match getStreamableImage (sampleEngine 3000 2000 Ended) (deliveringClient blob)
          photo THUMBNAIL_IMAGE_LOADER_OPTIONS with
  | (tr, inl s) => (tr, Some (Sharp.calls s))
  | (tr, inr _) => (tr, None)
  end
  = ([EvDownload "imgs" "photo.PNG"],
     Some [Sharp.Rotate; Sharp.Resize 120; Sharp.Jpeg 60 (Some true)]).
Proof. vm_compute. reflexivity. Qed.


(** * Further properties *)

(** ** The type detector, continued *)

Section TypeDetectorMore.

Import JsString.

Lemma toLowerCase_append (a b : string) :
  toLowerCase (a ++ b) = toLowerCase a ++ toLowerCase b.
Proof. induction a as [|c a IH]; simpl; [reflexivity | now rewrite IH]. Qed.

Lemma toLowerCase_length (s : string) :
  String.length (toLowerCase s) = String.length s.
Proof. induction s as [|c s IH]; simpl; [reflexivity | now rewrite IH]. Qed.

(** A suffix test on a long enough tail does not see what precedes it. *)
Lemma endsWith_append (a b suf : string) :
  (String.length suf <= String.length b)%nat ->
  endsWith (a ++ b) suf = endsWith b suf.
Proof.
  intros Hlen.
  destruct (endsWith b suf) eqn:Hb.
  - apply endsWith_spec in Hb as [q ->].
    apply endsWith_spec. exists (a ++ q). now rewrite append_assoc.
  - destruct (endsWith (a ++ b) suf) eqn:Hab; [|reflexivity].
    apply endsWith_spec in Hab as [p Hp].
    pose proof (suffix_comparable (a ++ b) p suf a b Hp eq_refl Hlen) as Hs.
    apply endsWith_spec in Hs. congruence.
Qed.

(** X1: the detected type depends on the last five characters of the path
    only: whatever precedes a tail of five or more characters (directories,
    the file name) does not change it. *)
Theorem deriveImageTypeFromPath_last_five (pre tail : string) :
  (5 <= String.length tail)%nat ->
  deriveImageTypeFromPath (pre ++ tail) = deriveImageTypeFromPath tail.
Proof.
  intros Hlen. unfold deriveImageTypeFromPath.
  rewrite toLowerCase_append.
  rewrite !endsWith_append by (rewrite toLowerCase_length; simpl; lia).
  reflexivity.
Qed.

Lemma deriveImageTypeFromPath_last_five_witness :
  (5 <= String.length "x.png")%nat
  /\ deriveImageTypeFromPath ("user-7/albums/2023/" ++ "x.png") = "png".
Proof.
  split; [simpl; lia|].
  rewrite (deriveImageTypeFromPath_last_five "user-7/albums/2023/" "x.png");
    [reflexivity | simpl; lia].
Defined.

Lemma suffix_gives_extension (path : string) (ext : string) :
  endsWith (toLowerCase path) ("." ++ ext) = true ->
  exists name e, path = name ++ "." ++ e /\ String.length e = String.length ext.
Proof.
  intros H. apply endsWith_spec in H as [pre H].
  apply toLowerCase_append_inv in H as [a' [b' [-> [_ Hb]]]].
  destruct b' as [|c b']; [discriminate|].
  simpl in Hb. injection Hb as Hc Hrest. apply lowerChar_dot in Hc. subst c.
  exists a', b'. split; [reflexivity|].
  now rewrite <- Hrest, toLowerCase_length.
Qed.

(** X2: a path is recognised only if it ends with a dot followed by three
    or four characters; in particular a path shorter than four characters,
    or one without a dot, is of unknown type. *)
Theorem recognised_path_has_extension (path : string) :
  deriveImageTypeFromPath path <> "unknown" ->
  exists name ext,
    path = name ++ "." ++ ext /\
    (String.length ext = 3 \/ String.length ext = 4)%nat /\
    (4 <= String.length path)%nat.
Proof.
  intros Hknown.
  assert (Hext : exists name ext, path = name ++ "." ++ ext /\
                 (String.length ext = 3 \/ String.length ext = 4)%nat).
  { unfold deriveImageTypeFromPath in Hknown.
    destruct (endsWith (toLowerCase path) ".jpeg") eqn:E1;
      [destruct (suffix_gives_extension path "jpeg" E1) as [n [e [? ?]]];
       exists n, e; split; [assumption | right; assumption]|].
    destruct (endsWith (toLowerCase path) ".jpg") eqn:E2;
      [destruct (suffix_gives_extension path "jpg" E2) as [n [e [? ?]]];
       exists n, e; split; [assumption | left; assumption]|].
    destruct (endsWith (toLowerCase path) ".gif") eqn:E3;
      [destruct (suffix_gives_extension path "gif" E3) as [n [e [? ?]]];
       exists n, e; split; [assumption | left; assumption]|].
    destruct (endsWith (toLowerCase path) ".png") eqn:E4;
      [destruct (suffix_gives_extension path "png" E4) as [n [e [? ?]]];
       exists n, e; split; [assumption | left; assumption]|].
    destruct (endsWith (toLowerCase path) ".heic") eqn:E5;
      [destruct (suffix_gives_extension path "heic" E5) as [n [e [? ?]]];
       exists n, e; split; [assumption | right; assumption]|].
    destruct (endsWith (toLowerCase path) ".tiff") eqn:E6;
      [destruct (suffix_gives_extension path "tiff" E6) as [n [e [? ?]]];
       exists n, e; split; [assumption | right; assumption]|].
    destruct (endsWith (toLowerCase path) ".webp") eqn:E7;
      [destruct (suffix_gives_extension path "webp" E7) as [n [e [? ?]]];
       exists n, e; split; [assumption | right; assumption]|].
    simpl in Hknown. congruence. }
  destruct Hext as [name [ext [Hp Hl]]].
  exists name, ext. split; [exact Hp|]. split; [exact Hl|].
  rewrite Hp, !length_append. simpl. lia.
Qed.

Lemma recognised_path_has_extension_witness :
  deriveImageTypeFromPath "a.JPEG" <> "unknown"
  /\ exists name ext, "a.JPEG" = name ++ "." ++ ext
                      /\ (4 <= String.length "a.JPEG")%nat.
Proof.
  assert (H : deriveImageTypeFromPath "a.JPEG" <> "unknown") by discriminate.
  split; [exact H|].
  destruct (recognised_path_has_extension "a.JPEG" H) as [n [e [Hp [_ Hl]]]].
  exists n, e. split; assumption.
Defined.

End TypeDetectorMore.

(** ** The fetcher *)

(** X3: the fetcher calls the storage client once, whatever the outcome.
    It returns the data exactly when the answer carries no error and carries
    data; an answer with an error is "Image not found" even when it carries
    data as well; what the client throws is thrown on unchanged. *)
Theorem loadImageFromSupabase_outcome
  (serverClient : SupabaseClient) (b p : string) :
  fst (loadImageFromSupabase serverClient b p) = [EvDownload b p] /\
  (forall blob,
     snd (loadImageFromSupabase serverClient b p) = inl blob
     <-> exists r, serverClient b p = inl r /\ error r = None /\ data r = Some blob) /\
  (forall r, serverClient b p = inl r -> error r <> None ->
     snd (loadImageFromSupabase serverClient b p)
     = inr (JsError ("Image not found > " ++ Json.stringifyBucketPath b p))) /\
  (forall r, serverClient b p = inl r -> error r = None -> data r = None ->
     snd (loadImageFromSupabase serverClient b p)
     = inr (JsError ("Blob was not retrieved > " ++ Json.stringifyBucketPath b p))) /\
  (forall e, serverClient b p = inr e ->
     snd (loadImageFromSupabase serverClient b p) = inr e).
Proof.
  split; [apply loadImageFromSupabase_trace|].
  unfold loadImageFromSupabase, bind, emit, lift, throw, ret.
  destruct (serverClient b p) as [r | e0]; simpl.
  - destruct (error r) as [msg|] eqn:He; destruct (data r) as [d|] eqn:Hd; simpl;
      (split; [intros blob; split;
                 [intros H; try discriminate; injection H as <-; exists r; auto
                 |intros [r' [Hr [He' Hd']]]; injection Hr as <-; congruence]|]);
      (split; [intros r' Hr Hne; injection Hr as <-; congruence|]);
      (split; [intros r' Hr He' Hd'; injection Hr as <-; congruence|]);
      intros e Hr; discriminate.
  - split; [intros blob; split; [discriminate | intros [r [Hr _]]; discriminate]|].
    split; [intros r Hr; discriminate|].
    split; [intros r Hr; discriminate|].
    intros e He. congruence.
Qed.

(** An answer that has both an error and data. *)
Example error_wins_over_data :
  loadImageFromSupabase (confusedClient sampleBlob) "imgs" "photo.PNG"
  = ([EvDownload "imgs" "photo.PNG"],
     inr (JsError ("Image not found > " ++ Json.stringifyBucketPath "imgs" "photo.PNG"))).
Proof. reflexivity. Qed.

(** ** The pipeline, case by case *)

(** Every way [getStreamableImage] can go. *)
Lemma getStreamableImage_cases
  (engine : SharpEngine) (supabaseClient : SupabaseClient)
  (imageData : SupabaseImageData) (options : ImageLoaderOptions) :
  let run := getStreamableImage engine supabaseClient imageData options in
  let b := bucket imageData in
  let p := path imageData in
  (deriveImageTypeFromPath p = "unknown" /\
   run = ([], inr (JsError ("Unknown image type: " ++ p))))
  \/ (deriveImageTypeFromPath p <> "unknown" /\
      ((exists e, supabaseClient b p = inr e /\ run = ([EvDownload b p], inr e))
       \/ (exists r, supabaseClient b p = inl r /\ error r <> None /\
             run = ([EvDownload b p],
                    inr (JsError ("Image not found > " ++ Json.stringifyBucketPath b p))))
       \/ (exists r, supabaseClient b p = inl r /\ error r = None /\ data r = None /\
             run = ([EvDownload b p],
                    inr (JsError ("Blob was not retrieved > "
                                  ++ Json.stringifyBucketPath b p))))
       \/ (supabaseClient b p = inl {| data := Some []; error := None |} /\
           run = ([EvDownload b p], inr (JsError "Input Buffer is empty")))
       \/ (exists blob e,
             supabaseClient b p = inl {| data := Some blob; error := None |} /\
             blob <> [] /\ metadata engine blob = inr e /\
             run = ([EvDownload b p], inr e))
       \/ (exists blob meta,
             supabaseClient b p = inl {| data := Some blob; error := None |} /\
             blob <> [] /\ metadata engine blob = inl meta /\
             (Sharp.width meta = None \/ Sharp.width meta = Some 0%Z) /\
             run = ([EvDownload b p], inr widthError))
       \/ (exists blob meta w,
             Decoded engine supabaseClient imageData blob meta w))).
Proof.
  intros run b p. subst run b p.
  destruct (String.eqb (deriveImageTypeFromPath (path imageData)) "unknown") eqn:Ht.
  - left. apply String.eqb_eq in Ht. split; [exact Ht|].
    unfold getStreamableImage. rewrite Ht. reflexivity.
  - right. apply String.eqb_neq in Ht. split; [exact Ht|].
    unfold getStreamableImage. rewrite (eqb_unknown_false _ Ht).
    unfold loadImageFromSupabase, sharp, bind, emit, lift, ret, throw.
    destruct (supabaseClient (bucket imageData) (path imageData)) as [r | e] eqn:Hc.
    + destruct r as [d er]. cbn [error data app].
      destruct er as [msg|].
      * right; left. eexists. split; [reflexivity|]. split; [discriminate|].
        reflexivity.
      * destruct d as [blob|]; cbn [app].
        -- destruct blob as [|x blob]; cbn [app].
           ++ do 3 right. left. split; reflexivity.
           ++ destruct (metadata engine (x :: blob)) as [m | e] eqn:Hm; cbn [app].
              ** destruct (Sharp.width m) as [w|] eqn:Hw.
                 --- destruct (w =? 0)%Z eqn:Hz.
                     +++ do 5 right. left. exists (x :: blob), m.
                         apply Z.eqb_eq in Hz. subst w.
                         split; [reflexivity|]. split; [discriminate|].
                         split; [exact Hm|]. split; [now right | reflexivity].
                     +++ do 6 right. apply Z.eqb_neq in Hz.
                         exists (x :: blob), m, w.
                         repeat split; try assumption; discriminate.
                 --- do 5 right. left. exists (x :: blob), m.
                     split; [reflexivity|]. split; [discriminate|].
                     split; [exact Hm|]. split; [now left | reflexivity].
              ** do 4 right. left. exists (x :: blob), e.
                 split; [reflexivity|]. split; [discriminate|].
                 split; [exact Hm | reflexivity].
        -- do 2 right. left. eexists. split; [reflexivity|].
           repeat split; reflexivity.
    + left. exists e. split; reflexivity.
Qed.

(** ** Failures, one by one *)

Lemma valid_reference (imageData : SupabaseImageData) :
  (falsyString (bucket imageData) || falsyString (path imageData))%bool = false
  <-> bucket imageData <> "" /\ path imageData <> "".
Proof.
  unfold falsyString. rewrite orb_false_iff, !String.eqb_neq. reflexivity.
Qed.

Lemma try_failure_of_pipeline
  (engine : SharpEngine) (supabaseClient : SupabaseClient)
  (imageData : SupabaseImageData) (options : ResponderOptions)
  (pre : list Event) (e : Exn) :
  bucket imageData <> "" -> path imageData <> "" ->
  getStreamableImage engine supabaseClient imageData options = (pre, inr e) ->
  loadImageSafely_try engine supabaseClient imageData options = (pre, inr e).
Proof.
  intros Hb Hp Hget. unfold loadImageSafely_try.
  rewrite (proj2 (valid_reference imageData) (conj Hb Hp)).
  unfold bind at 1. unfold ret at 1. rewrite Hget. reflexivity.
Qed.

Lemma success_status_of_pipeline
  (engine : SharpEngine) (supabaseClient : SupabaseClient)
  (imageData : SupabaseImageData) (options : ResponderOptions)
  (pre : list Event) (s : Sharp.t) :
  bucket imageData <> "" -> path imageData <> "" ->
  getStreamableImage engine supabaseClient imageData options = (pre, inl s) ->
  responseStatus (fst (loadImageSafely engine supabaseClient imageData options))
  = Some 200%Z.
Proof.
  intros Hb Hp Hget.
  pose proof (try_after_pipeline engine supabaseClient imageData options pre s
                (proj2 (valid_reference imageData) (conj Hb Hp)) Hget) as Htry.
  unfold loadImageSafely, tryCatch. rewrite Htry. cbn [fst].
  pose proof (getStreamableImage_trace engine supabaseClient imageData options) as Hpre.
  rewrite Hget in Hpre. cbn [fst] in Hpre.
  destruct Hpre as [-> | ->]; reflexivity.
Qed.

(** The status and settlement after a caught failure. *)
Lemma failure_status
  (engine : SharpEngine) (supabaseClient : SupabaseClient)
  (imageData : SupabaseImageData) (options : ResponderOptions)
  (tr : list Event) (e : Exn) :
  loadImageSafely_try engine supabaseClient imageData options = (tr, inr e) ->
  responseStatus (fst (loadImageSafely engine supabaseClient imageData options))
  = Some (if JsString.includes (exnToString e) "Image not found"
          then 404%Z else 500%Z) /\
  snd (loadImageSafely engine supabaseClient imageData options) = inl Resolved.
Proof.
  intros Htry.
  rewrite (loadImageSafely_failure _ _ _ _ _ _ Htry). cbn [fst snd].
  split; [|reflexivity].
  rewrite (responseStatus_after_downloads imageData tr _
             (try_failure_trace _ _ _ _ _ _ Htry)).
  rewrite responseStatus_after_hook.
  destruct (truthy (useTransparentImageFallback options)); reflexivity.
Qed.

(** A character that does not begin the text cannot begin a match. *)
Lemma includes_skip (c c0 : ascii) (s t : string) :
  Ascii.eqb c0 c = false ->
  JsString.includes (String c s) (String c0 t) = JsString.includes s (String c0 t).
Proof. intros H. cbn [JsString.includes JsString.startsWith]. now rewrite H. Qed.

Ltac skip_prefix :=
  repeat (rewrite includes_skip by reflexivity).

Lemma not_found_text (info : string) :
  JsString.includes (exnToString (JsError ("Image not found > " ++ info)))
    "Image not found" = true.
Proof. reflexivity. Qed.

Lemma no_blob_text (info : string) :
  JsString.includes (exnToString (JsError ("Blob was not retrieved > " ++ info)))
    "Image not found"
  = JsString.includes info "Image not found".
Proof. cbn [exnToString append String.eqb]. skip_prefix. reflexivity. Qed.

Lemma unknown_type_text (p : string) :
  JsString.includes (exnToString (JsError ("Unknown image type: " ++ p)))
    "Image not found"
  = JsString.includes p "Image not found".
Proof. cbn [exnToString append String.eqb]. skip_prefix. reflexivity. Qed.

(** X4: when the storage client answers with an error for a request with a
    non-empty bucket, a non-empty path and a recognised extension, the
    response status is 404, whatever the bucket and the path are and
    whatever the fallback flag; one download was made and the promise
    resolves. *)
Theorem storage_error_is_answered_404
  (engine : SharpEngine) (supabaseClient : SupabaseClient)
  (imageData : SupabaseImageData) (options : ResponderOptions)
  (r : DownloadResponse) :
  bucket imageData <> "" -> path imageData <> "" ->
  deriveImageTypeFromPath (path imageData) <> "unknown" ->
  supabaseClient (bucket imageData) (path imageData) = inl r ->
  error r <> None ->
  let run := loadImageSafely engine supabaseClient imageData options in
  responseStatus (fst run) = Some 404%Z /\
  fetchCount (fst run) = 1%nat /\
  snd run = inl Resolved /\
  (truthy (useTransparentImageFallback options) = false ->
   fst run
   = ([EvDownload (bucket imageData) (path imageData)]
        ++ hookCalls options
             (JsError ("Image not found > "
                       ++ Json.stringifyBucketPath (bucket imageData) (path imageData)))
        ++ [EvStatus 404; EvSend "Image not found"])%list).
Proof.
  intros Hb Hp Ht Hc He run. subst run.
  assert (Hget : getStreamableImage engine supabaseClient imageData options
                 = ([EvDownload (bucket imageData) (path imageData)],
                    inr (JsError ("Image not found > "
                                  ++ Json.stringifyBucketPath (bucket imageData)
                                       (path imageData))))).
  { unfold getStreamableImage. rewrite (eqb_unknown_false _ Ht).
    pose proof (loadImageFromSupabase_trace supabaseClient
                  (bucket imageData) (path imageData)) as Htr.
    assert (Hs : snd (loadImageFromSupabase supabaseClient
                        (bucket imageData) (path imageData))
                 = inr (JsError ("Image not found > "
                                 ++ Json.stringifyBucketPath (bucket imageData)
                                      (path imageData)))).
    { unfold loadImageFromSupabase, bind, emit, lift, throw, ret.
      rewrite Hc. destruct (error r); [reflexivity | congruence]. }
    destruct (loadImageFromSupabase supabaseClient (bucket imageData) (path imageData))
      as [tr res]. cbn [fst snd] in Htr, Hs. subst tr res. reflexivity. }
  pose proof (try_failure_of_pipeline _ _ _ _ _ _ Hb Hp Hget) as Htry.
  destruct (failure_status _ _ _ _ _ _ Htry) as [Hstatus Hsnd].
  rewrite not_found_text in Hstatus.
  pose proof (loadImageSafely_failure _ _ _ _ _ _ Htry) as Hrun.
  rewrite not_found_text in Hrun. cbv zeta in Hrun.
  split; [exact Hstatus|]. split; [|split; [exact Hsnd|]].
  - rewrite Hrun. cbn [fst]. unfold hookCalls.
    destruct (onError options); destruct (truthy (useTransparentImageFallback options));
      reflexivity.
  - intros Hflag. rewrite Hrun, Hflag. reflexivity.
Qed.

Lemma storage_error_is_answered_404_witness :
  deriveImageTypeFromPath (path photo) <> "unknown"
  /\ responseStatus
       (fst (loadImageSafely (sampleEngine 100 50 Ended) (confusedClient sampleBlob)
               photo (respondWith THUMBNAIL_IMAGE_LOADER_OPTIONS (Some true))))
     = Some 404%Z.
Proof.
  assert (Ht : deriveImageTypeFromPath (path photo) <> "unknown") by discriminate.
  split; [exact Ht|].
  apply (storage_error_is_answered_404
           (sampleEngine 100 50 Ended) (confusedClient sampleBlob) photo
           (respondWith THUMBNAIL_IMAGE_LOADER_OPTIONS (Some true))
           {| data := Some sampleBlob; error := Some "Object not found" |});
    first [discriminate | reflexivity | assumption].
Defined.

(** X5: when the decoder reports no width, or the width 0, for an image
    that was delivered, the pipeline fails with "Not possible to retrieve
    image width" after its one download; the hook, if any, receives that
    error and the response status is 500. *)
Theorem missing_width_is_answered_500
  (engine : SharpEngine) (supabaseClient : SupabaseClient)
  (imageData : SupabaseImageData) (options : ResponderOptions)
  (blob : list Byte.byte) (meta : Sharp.Metadata) :
  bucket imageData <> "" -> path imageData <> "" ->
  deriveImageTypeFromPath (path imageData) <> "unknown" ->
  supabaseClient (bucket imageData) (path imageData)
  = inl {| data := Some blob; error := None |} ->
  blob <> [] ->
  metadata engine blob = inl meta ->
  Sharp.width meta = None \/ Sharp.width meta = Some 0%Z ->
  let run := loadImageSafely engine supabaseClient imageData options in
  getStreamableImage engine supabaseClient imageData options
  = ([EvDownload (bucket imageData) (path imageData)],
     inr (JsError "Not possible to retrieve image width")) /\
  responseStatus (fst run) = Some 500%Z /\
  snd run = inl Resolved /\
  exists response,
    fst run
    = ([EvDownload (bucket imageData) (path imageData)]
         ++ hookCalls options (JsError "Not possible to retrieve image width")
         ++ response)%list.
Proof.
  intros Hb Hp Ht Hc Hne Hm Hw run. subst run.
  assert (Hget : getStreamableImage engine supabaseClient imageData options
                 = ([EvDownload (bucket imageData) (path imageData)],
                    inr (JsError "Not possible to retrieve image width"))).
  { unfold getStreamableImage. rewrite (eqb_unknown_false _ Ht).
    unfold loadImageFromSupabase, sharp, bind, emit, lift, ret, throw.
    rewrite Hc. cbn [error data app].
    destruct blob as [|x blob]; [congruence|]. cbn [app].
    rewrite Hm. cbn [app].
    destruct Hw as [-> | ->]; reflexivity. }
  split; [exact Hget|].
  pose proof (try_failure_of_pipeline _ _ _ _ _ _ Hb Hp Hget) as Htry.
  destruct (failure_status _ _ _ _ _ _ Htry) as [Hstatus Hsnd].
  split; [exact Hstatus|]. split; [exact Hsnd|].
  rewrite (loadImageSafely_failure _ _ _ _ _ _ Htry). cbn [fst].
  eexists. reflexivity.
Qed.

Lemma missing_width_is_answered_500_witness :
  deriveImageTypeFromPath (path photo) <> "unknown"
  /\ getStreamableImage widthlessEngine (deliveringClient sampleBlob) photo
       THUMBNAIL_IMAGE_LOADER_OPTIONS
     = ([EvDownload "imgs" "photo.PNG"],
        inr (JsError "Not possible to retrieve image width"))
  /\ responseStatus
       (fst (loadImageSafely widthlessEngine (deliveringClient sampleBlob) photo
               (respondWith THUMBNAIL_IMAGE_LOADER_OPTIONS None)))
     = Some 500%Z.
Proof.
  assert (Ht : deriveImageTypeFromPath (path photo) <> "unknown") by discriminate.
  split; [exact Ht|].
  assert (Hne : sampleBlob <> []) by discriminate.
  destruct (missing_width_is_answered_500
              widthlessEngine (deliveringClient sampleBlob) photo
              (respondWith THUMBNAIL_IMAGE_LOADER_OPTIONS None)
              sampleBlob
              {| Sharp.width := None; Sharp.height := None; Sharp.orientation := None |}
              ltac:(discriminate) ltac:(discriminate) Ht eq_refl Hne eq_refl
              (or_introl eq_refl))
    as [Hget [Hstatus _]].
  split; [exact Hget | exact Hstatus].
Defined.

(** X6: an answer with neither error nor data is answered 500, and a path
    of unknown type is answered 500, as long as the bucket and the path do
    not themselves spell out "Image not found": only then is 404 kept for
    objects the storage reports missing. *)
Theorem other_failures_are_answered_500
  (engine : SharpEngine) (supabaseClient : SupabaseClient)
  (imageData : SupabaseImageData) (options : ResponderOptions) :
  bucket imageData <> "" -> path imageData <> "" ->
  ~ JsString.Contains
      (Json.stringifyBucketPath (bucket imageData) (path imageData))
      "Image not found" ->
  ~ JsString.Contains (path imageData) "Image not found" ->
  deriveImageTypeFromPath (path imageData) = "unknown"
  \/ supabaseClient (bucket imageData) (path imageData)
     = inl {| data := None; error := None |} ->
  responseStatus (fst (loadImageSafely engine supabaseClient imageData options))
  = Some 500%Z.
Proof.
  intros Hb Hp Hinfo Hpath Hcase.
  assert (Hfalse : forall s, ~ JsString.Contains s "Image not found" ->
                             JsString.includes s "Image not found" = false).
  { intros s Hs. destruct (JsString.includes s "Image not found") eqn:Hi;
      [|reflexivity]. apply includes_spec in Hi. contradiction. }
  destruct (String.eqb (deriveImageTypeFromPath (path imageData)) "unknown") eqn:Ht.
  - assert (Hget : getStreamableImage engine supabaseClient imageData options
                   = ([], inr (JsError ("Unknown image type: " ++ path imageData)))).
    { unfold getStreamableImage. rewrite Ht. reflexivity. }
    pose proof (try_failure_of_pipeline _ _ _ _ _ _ Hb Hp Hget) as Htry.
    destruct (failure_status _ _ _ _ _ _ Htry) as [Hstatus _].
    rewrite unknown_type_text, (Hfalse _ Hpath) in Hstatus. exact Hstatus.
  - destruct Hcase as [Hu | Hc]; [rewrite Hu in Ht; discriminate|].
    assert (Hget : getStreamableImage engine supabaseClient imageData options
                   = ([EvDownload (bucket imageData) (path imageData)],
                      inr (JsError ("Blob was not retrieved > "
                                    ++ Json.stringifyBucketPath (bucket imageData)
                                         (path imageData))))).
    { unfold getStreamableImage. rewrite Ht.
      unfold loadImageFromSupabase, bind, emit, lift, ret, throw.
      rewrite Hc. reflexivity. }
    pose proof (try_failure_of_pipeline _ _ _ _ _ _ Hb Hp Hget) as Htry.
    destruct (failure_status _ _ _ _ _ _ Htry) as [Hstatus _].
    rewrite no_blob_text, (Hfalse _ Hinfo) in Hstatus. exact Hstatus.
Qed.

Lemma other_failures_are_answered_500_witness :
  JsString.includes (Json.stringifyBucketPath (bucket photo) (path photo))
    "Image not found" = false
  /\ responseStatus
       (fst (loadImageSafely (sampleEngine 100 50 Ended) emptyAnswerClient photo
               (respondWith THUMBNAIL_IMAGE_LOADER_OPTIONS (Some true))))
     = Some 500%Z.
Proof.
  split; [reflexivity|].
  apply (other_failures_are_answered_500
           (sampleEngine 100 50 Ended) emptyAnswerClient photo
           (respondWith THUMBNAIL_IMAGE_LOADER_OPTIONS (Some true))).
  - discriminate.
  - discriminate.
  - intros H. apply includes_spec in H. discriminate H.
  - intros H. apply includes_spec in H. discriminate H.
  - right. reflexivity.
Defined.

(** X7: what the storage client throws, and what the decoder rejects with,
    is the value the pipeline fails with: it reaches the [onError] hook
    unchanged, after the one download and before the response is written. *)
Theorem collaborator_error_reaches_hook
  (engine : SharpEngine) (supabaseClient : SupabaseClient)
  (imageData : SupabaseImageData) (options : ResponderOptions)
  (e : Exn) (f : Callback) :
  bucket imageData <> "" -> path imageData <> "" ->
  deriveImageTypeFromPath (path imageData) <> "unknown" ->
  supabaseClient (bucket imageData) (path imageData) = inr e
  \/ (exists blob,
        supabaseClient (bucket imageData) (path imageData)
        = inl {| data := Some blob; error := None |} /\
        blob <> [] /\ metadata engine blob = inr e) ->
  onError options = Some f ->
  loadImageSafely_try engine supabaseClient imageData options
  = ([EvDownload (bucket imageData) (path imageData)], inr e) /\
  exists response,
    fst (loadImageSafely engine supabaseClient imageData options)
    = (EvDownload (bucket imageData) (path imageData) :: EvCall f e :: response)%list
    /\ hookCount response = 0%nat
    /\ headCount response = 1%nat.
Proof.
  intros Hb Hp Ht Hcase Hhook.
  assert (Hget : getStreamableImage engine supabaseClient imageData options
                 = ([EvDownload (bucket imageData) (path imageData)], inr e)).
  { unfold getStreamableImage. rewrite (eqb_unknown_false _ Ht).
    unfold loadImageFromSupabase, sharp, bind, emit, lift, ret, throw.
    destruct Hcase as [Hc | [blob [Hc [Hne Hm]]]]; rewrite Hc.
    - reflexivity.
    - cbn [error data app]. destruct blob as [|x blob]; [congruence|].
      cbn [app]. rewrite Hm. reflexivity. }
  pose proof (try_failure_of_pipeline _ _ _ _ _ _ Hb Hp Hget) as Htry.
  split; [exact Htry|].
  rewrite (loadImageSafely_failure _ _ _ _ _ _ Htry). cbn [fst].
  unfold hookCalls. rewrite Hhook. cbn [app].
  eexists. split; [reflexivity|].
  destruct (JsString.includes (exnToString e) "Image not found");
    destruct (truthy (useTransparentImageFallback options)); split; reflexivity.
Qed.

Lemma collaborator_error_reaches_hook_witness :
  deriveImageTypeFromPath (path photo) <> "unknown"
  /\ loadImageSafely_try (rejectingEngine (Thrown "Input buffer contains unsupported image format"))
       (deliveringClient sampleBlob) photo
       (respondWith THUMBNAIL_IMAGE_LOADER_OPTIONS None)
     = ([EvDownload "imgs" "photo.PNG"],
        inr (Thrown "Input buffer contains unsupported image format")).
Proof.
  assert (Ht : deriveImageTypeFromPath (path photo) <> "unknown") by discriminate.
  split; [exact Ht|].
  apply (collaborator_error_reaches_hook
           (rejectingEngine (Thrown "Input buffer contains unsupported image format"))
           (deliveringClient sampleBlob) photo
           (respondWith THUMBNAIL_IMAGE_LOADER_OPTIONS None)
           (Thrown "Input buffer contains unsupported image format") 7%nat).
  - discriminate.
  - discriminate.
  - exact Ht.
  - right. exists sampleBlob. repeat split; try reflexivity. discriminate.
  - reflexivity.
Defined.

(** ** What every request has in common *)

Lemma headCount_app (a b : list Event) :
  headCount (a ++ b) = (headCount a + headCount b)%nat.
Proof. unfold headCount. now rewrite filter_app, length_app. Qed.

Lemma finishCount_app (a b : list Event) :
  finishCount (a ++ b) = (finishCount a + finishCount b)%nat.
Proof. unfold finishCount. now rewrite filter_app, length_app. Qed.

Lemma hookCount_app (a b : list Event) :
  hookCount (a ++ b) = (hookCount a + hookCount b)%nat.
Proof. unfold hookCount. now rewrite filter_app, length_app. Qed.

Lemma fetchCount_app (a b : list Event) :
  fetchCount (a ++ b) = (fetchCount a + fetchCount b)%nat.
Proof. unfold fetchCount. now rewrite filter_app, length_app. Qed.

(** Copied chunks are neither heads, nor finishes, nor calls. *)
Lemma writes_count_nothing (cs : list (list Byte.byte)) :
  headCount (map EvWrite cs) = 0%nat /\ finishCount (map EvWrite cs) = 0%nat /\
  hookCount (map EvWrite cs) = 0%nat /\ fetchCount (map EvWrite cs) = 0%nat.
Proof. induction cs as [|c cs IH]; [repeat split | exact IH]. Qed.

Lemma streamEvents_counts (engine : SharpEngine) (s : Sharp.t) :
  headCount (streamEvents engine s) = 0%nat /\
  hookCount (streamEvents engine s) = 0%nat /\
  fetchCount (streamEvents engine s) = 0%nat /\
  finishCount (streamEvents engine s)
  = match finish (render engine s) with Ended => 1%nat | Failed _ => 0%nat end.
Proof.
  unfold streamEvents.
  destruct (writes_count_nothing (chunks (render engine s))) as (Hh & Hf & Hk & Hd).
  change (EvPipe s :: map EvWrite (chunks (render engine s))
            ++ match finish (render engine s) with
               | Ended => [EvEnd None]
               | Failed _ => []
               end)%list
    with ([EvPipe s] ++ map EvWrite (chunks (render engine s))
            ++ match finish (render engine s) with
               | Ended => [EvEnd None]
               | Failed _ => []
               end)%list.
  rewrite !headCount_app, !hookCount_app, !fetchCount_app, !finishCount_app.
  rewrite Hh, Hf, Hk, Hd.
  destruct (finish (render engine s)); repeat split.
Qed.

(** The two shapes of a run of the responder. *)
Lemma loadImageSafely_shapes
  (engine : SharpEngine) (supabaseClient : SupabaseClient)
  (imageData : SupabaseImageData) (options : ResponderOptions) :
  (exists tr e,
     loadImageSafely_try engine supabaseClient imageData options = (tr, inr e) /\
     (tr = [] \/ tr = [EvDownload (bucket imageData) (path imageData)]))
  \/ (exists pre s,
        (falsyString (bucket imageData) || falsyString (path imageData))%bool = false /\
        getStreamableImage engine supabaseClient imageData options = (pre, inl s) /\
        (pre = [] \/ pre = [EvDownload (bucket imageData) (path imageData)]) /\
        loadImageSafely_try engine supabaseClient imageData options
        = ((pre ++ EvWriteHead 200 (successHeaders options)
                :: streamEvents engine s)%list,
           inl (streamSettlement engine s)) /\
        loadImageSafely engine supabaseClient imageData options
        = ((pre ++ EvWriteHead 200 (successHeaders options)
                :: streamEvents engine s)%list,
           inl (streamSettlement engine s))).
Proof.
  destruct (loadImageSafely_try engine supabaseClient imageData options)
    as [tr [v | e]] eqn:Htry.
  - right. destruct (try_success_inv _ _ _ _ _ _ Htry) as [pre [s [Hget [Hpre [-> ->]]]]].
    exists pre, s.
    assert (Hvalid : (falsyString (bucket imageData)
                      || falsyString (path imageData))%bool = false).
    { destruct (falsyString (bucket imageData) || falsyString (path imageData))%bool
        eqn:Hv; [|reflexivity].
      unfold loadImageSafely_try in Htry. rewrite Hv in Htry. discriminate. }
    repeat split; try assumption.
    unfold loadImageSafely, tryCatch. now rewrite Htry.
  - left. exists tr, e. split; [reflexivity|].
    exact (try_failure_trace _ _ _ _ _ _ Htry).
Qed.

(** After a caught failure: rewrite the run and go through the cases of the
    trace so far, the hook, the classification and the flag. *)
Ltac failure_cases Htry Htr :=
  rewrite (loadImageSafely_failure _ _ _ _ _ _ Htry); cbn [fst snd];
  unfold hookCalls;
  destruct Htr as [-> | ->];
  destruct (onError _) as [?f|];
  destruct (JsString.includes (exnToString _) "Image not found");
  destruct (truthy (useTransparentImageFallback _)).

(** X8: without an [onError] hook every request is answered exactly once:
    the trace holds exactly one event that sets the status, the status is
    200, 404 or 500, and the responder does not throw. *)
Theorem every_request_gets_one_status
  (engine : SharpEngine) (supabaseClient : SupabaseClient)
  (imageData : SupabaseImageData) (options : ResponderOptions) :
  onError options = None ->
  let run := loadImageSafely engine supabaseClient imageData options in
  headCount (fst run) = 1%nat /\
  (responseStatus (fst run) = Some 200%Z \/
   responseStatus (fst run) = Some 404%Z \/
   responseStatus (fst run) = Some 500%Z) /\
  exists v, snd run = inl v.
Proof.
  intros Hhook run. subst run.
  destruct (loadImageSafely_shapes engine supabaseClient imageData options)
    as [[tr [e [Htry Htr]]] | [pre [s [_ [_ [Hpre [_ Hrun]]]]]]].
  - rewrite (loadImageSafely_failure _ _ _ _ _ _ Htry). cbn [fst snd].
    unfold hookCalls. rewrite Hhook.
    destruct Htr as [-> | ->];
      destruct (JsString.includes (exnToString e) "Image not found");
      destruct (truthy (useTransparentImageFallback options));
      (split; [reflexivity|]; split; [auto | eexists; reflexivity]).
  - rewrite Hrun. cbn [fst snd].
    destruct (streamEvents_counts engine s) as (Hh & _).
    change (pre ++ EvWriteHead 200 (successHeaders options) :: streamEvents engine s)%list
      with (pre ++ [EvWriteHead 200 (successHeaders options)]
              ++ streamEvents engine s)%list.
    rewrite !headCount_app, Hh.
    split; [destruct Hpre as [-> | ->]; reflexivity|].
    split; [left; destruct Hpre as [-> | ->]; reflexivity | eexists; reflexivity].
Qed.

Lemma every_request_gets_one_status_witness :
  onError (withoutHook tinyBudget (Some true)) = None
  /\ headCount
       (fst (loadImageSafely (sampleEngine 1 2000 Ended)
               (deliveringClient (repeat Byte.xff 5)) photo
               (withoutHook tinyBudget (Some true)))) = 1%nat.
Proof.
  split; [reflexivity|].
  apply (every_request_gets_one_status
           (sampleEngine 1 2000 Ended) (deliveringClient (repeat Byte.xff 5)) photo
           (withoutHook tinyBudget (Some true)) eq_refl).
Defined.

(** X9: without an [onError] hook the returned promise resolves exactly
    when the response has been finished, by [end] or by [send], and it is
    finished once.  The promise stays pending only after a 200 head, when
    the piped stream fails: the response is then never finished. *)
Theorem promise_resolves_with_finished_response
  (engine : SharpEngine) (supabaseClient : SupabaseClient)
  (imageData : SupabaseImageData) (options : ResponderOptions) :
  onError options = None ->
  let run := loadImageSafely engine supabaseClient imageData options in
  (snd run = inl Resolved /\ finishCount (fst run) = 1%nat)
  \/ (snd run = inl Pending /\ finishCount (fst run) = 0%nat /\
      responseStatus (fst run) = Some 200%Z /\
      exists pre s e,
        getStreamableImage engine supabaseClient imageData options = (pre, inl s) /\
        finish (render engine s) = Failed e).
Proof.
  intros Hhook run. subst run.
  destruct (loadImageSafely_shapes engine supabaseClient imageData options)
    as [[tr [e [Htry Htr]]] | [pre [s [_ [Hget [Hpre [_ Hrun]]]]]]].
  - left. rewrite (loadImageSafely_failure _ _ _ _ _ _ Htry). cbn [fst snd].
    unfold hookCalls. rewrite Hhook.
    destruct Htr as [-> | ->];
      destruct (JsString.includes (exnToString e) "Image not found");
      destruct (truthy (useTransparentImageFallback options)); split; reflexivity.
  - rewrite Hrun. cbn [fst snd].
    destruct (streamEvents_counts engine s) as (_ & _ & _ & Hf).
    change (pre ++ EvWriteHead 200 (successHeaders options) :: streamEvents engine s)%list
      with (pre ++ [EvWriteHead 200 (successHeaders options)]
              ++ streamEvents engine s)%list.
    rewrite !finishCount_app, Hf.
    unfold streamSettlement.
    destruct (finish (render engine s)) as [|e] eqn:Hfin.
    + left. split; [reflexivity|]. destruct Hpre as [-> | ->]; reflexivity.
    + right. split; [reflexivity|].
      split; [destruct Hpre as [-> | ->]; reflexivity|].
      split; [destruct Hpre as [-> | ->]; reflexivity|].
      exists pre, s, e. split; assumption.
Qed.

Lemma promise_resolves_with_finished_response_witness :
  onError (withoutHook THUMBNAIL_IMAGE_LOADER_OPTIONS None) = None
  /\ snd (loadImageSafely (sampleEngine 100 50 (Failed (Thrown "VipsJpeg: premature end")))
            (deliveringClient sampleBlob) photo
            (withoutHook THUMBNAIL_IMAGE_LOADER_OPTIONS None))
     = inl Pending
  /\ finishCount
       (fst (loadImageSafely (sampleEngine 100 50 (Failed (Thrown "VipsJpeg: premature end")))
               (deliveringClient sampleBlob) photo
               (withoutHook THUMBNAIL_IMAGE_LOADER_OPTIONS None))) = 0%nat.
Proof.
  split; [reflexivity|].
  destruct (promise_resolves_with_finished_response
              (sampleEngine 100 50 (Failed (Thrown "VipsJpeg: premature end")))
              (deliveringClient sampleBlob) photo
              (withoutHook THUMBNAIL_IMAGE_LOADER_OPTIONS None) eq_refl)
    as [[Hres _] | [Hpend [Hfin _]]].
  - discriminate Hres.
  - split; [exact Hpend | exact Hfin].
Defined.

Lemma pipeline_trace_by_type
  (engine : SharpEngine) (supabaseClient : SupabaseClient)
  (imageData : SupabaseImageData) (options : ImageLoaderOptions) :
  fst (getStreamableImage engine supabaseClient imageData options)
  = if String.eqb (deriveImageTypeFromPath (path imageData)) "unknown"
    then []
    else [EvDownload (bucket imageData) (path imageData)].
Proof.
  destruct (getStreamableImage_cases engine supabaseClient imageData options)
    as [[Hu ->] | [Hk Hcases]].
  - rewrite Hu. reflexivity.
  - rewrite (eqb_unknown_false _ Hk).
    destruct Hcases as [[e [_ ->]] | [[r [_ [_ ->]]] | [[r [_ [_ [_ ->]]]]
      | [[_ ->] | [[blob [e [_ [_ [_ ->]]]]] | [[blob [meta [_ [_ [_ [_ ->]]]]]]
      | [blob [meta [w Hdec]]]]]]]]]; try reflexivity.
    rewrite (getStreamableImage_decoded _ _ _ options _ _ _ Hdec). reflexivity.
Qed.

(** X10: a request causes at most one download, and exactly one when its
    bucket and path are not empty and its extension is recognised: there is
    no retry, and no download for a request that is rejected up front. *)
Theorem at_most_one_download
  (engine : SharpEngine) (supabaseClient : SupabaseClient)
  (imageData : SupabaseImageData) (options : ResponderOptions) :
  let run := loadImageSafely engine supabaseClient imageData options in
  (fetchCount (fst run) <= 1)%nat /\
  (fetchCount (fst run) = 1%nat
   <-> bucket imageData <> "" /\ path imageData <> "" /\
       deriveImageTypeFromPath (path imageData) <> "unknown").
Proof.
  intros run. subst run.
  assert (Hcount :
    fetchCount (fst (loadImageSafely engine supabaseClient imageData options))
    = if (falsyString (bucket imageData) || falsyString (path imageData))%bool
      then 0%nat
      else if String.eqb (deriveImageTypeFromPath (path imageData)) "unknown"
           then 0%nat else 1%nat).
  { pose proof (pipeline_trace_by_type engine supabaseClient imageData options) as Hpt.
    destruct (loadImageSafely_shapes engine supabaseClient imageData options)
      as [[tr [e [Htry Htr]]] | [pre [s [Hvalid [Hget [Hpre [_ Hrun]]]]]]].
    - destruct (falsyString (bucket imageData) || falsyString (path imageData))%bool
        eqn:Hv.
      + assert (tr = []).
        { unfold loadImageSafely_try in Htry. rewrite Hv in Htry.
          unfold bind, throw in Htry. congruence. }
        subst tr. rewrite (loadImageSafely_failure _ _ _ _ _ _ Htry). cbn [fst].
        unfold hookCalls. destruct (onError options);
          destruct (JsString.includes (exnToString e) "Image not found");
          destruct (truthy (useTransparentImageFallback options)); reflexivity.
      + assert (Htr' : tr = fst (getStreamableImage engine supabaseClient
                                   imageData options)).
        { unfold loadImageSafely_try in Htry. rewrite Hv in Htry.
          unfold bind at 1 in Htry. unfold ret at 1 in Htry.
          destruct (getStreamableImage engine supabaseClient imageData options)
            as [pre [s | e0]]; cbn [app fst] in *.
          - unfold bind at 1 in Htry. unfold bind at 1 in Htry. unfold emit in Htry.
            rewrite pipeUntilEnd_result in Htry. discriminate.
          - unfold bind in Htry. congruence. }
        rewrite Hpt in Htr'.
        rewrite (loadImageSafely_failure _ _ _ _ _ _ Htry). cbn [fst].
        rewrite fetchCount_app, fetchCount_app.
        assert (Hrest : forall l, l = hookCalls options e -> fetchCount l = 0%nat).
        { intros l ->. unfold hookCalls. destruct (onError options); reflexivity. }
        rewrite (Hrest _ eq_refl), Htr'.
        destruct (String.eqb (deriveImageTypeFromPath (path imageData)) "unknown");
          destruct (JsString.includes (exnToString e) "Image not found");
          destruct (truthy (useTransparentImageFallback options)); reflexivity.
    - rewrite Hrun, Hvalid. cbn [fst].
      rewrite Hget in Hpt. cbn [fst] in Hpt. rewrite Hpt.
      destruct (streamEvents_counts engine s) as (_ & _ & Hd & _).
      rewrite fetchCount_app.
      change (EvWriteHead 200 (successHeaders options) :: streamEvents engine s)%list
        with ([EvWriteHead 200 (successHeaders options)]
                ++ streamEvents engine s)%list.
      rewrite fetchCount_app, Hd.
      destruct (String.eqb (deriveImageTypeFromPath (path imageData)) "unknown");
        reflexivity. }
  rewrite Hcount.
  destruct (falsyString (bucket imageData) || falsyString (path imageData))%bool eqn:Hv.
  - split; [lia|]. split; [discriminate|].
    intros (Hb & Hp & _).
    rewrite (proj2 (valid_reference imageData) (conj Hb Hp)) in Hv. discriminate.
  - apply valid_reference in Hv as [Hb Hp].
    destruct (String.eqb (deriveImageTypeFromPath (path imageData)) "unknown") eqn:Ht.
    + split; [lia|]. split; [discriminate|].
      intros (_ & _ & Hk). apply String.eqb_eq in Ht. contradiction.
    + apply String.eqb_neq in Ht. split; [lia|]. split; auto.
Qed.

(** X11: the [onError] hook is called at most once per request, and exactly
    when the options carry one and the [try] block fails.  It is then called
    with the caught error before anything has been written to the response. *)
Theorem hook_called_once_on_failure_only
  (engine : SharpEngine) (supabaseClient : SupabaseClient)
  (imageData : SupabaseImageData) (options : ResponderOptions) :
  let run := loadImageSafely engine supabaseClient imageData options in
  (hookCount (fst run) <= 1)%nat /\
  (hookCount (fst run) = 1%nat
   <-> onError options <> None /\
       exists tr e,
         loadImageSafely_try engine supabaseClient imageData options = (tr, inr e)) /\
  (forall tr e f,
     loadImageSafely_try engine supabaseClient imageData options = (tr, inr e) ->
     onError options = Some f ->
     exists response,
       fst run = (tr ++ EvCall f e :: response)%list /\
       headCount tr = 0%nat /\ finishCount tr = 0%nat /\
       hookCount response = 0%nat).
Proof.
  intros run. subst run.
  destruct (loadImageSafely_shapes engine supabaseClient imageData options)
    as [[tr [e [Htry Htr]]] | [pre [s [_ [_ [Hpre [Htry Hrun]]]]]]].
  - split; [|split].
    + failure_cases Htry Htr; cbn; lia.
    + split.
      * intros H. split; [|exists tr, e; exact Htry].
        intros Hnone. revert H.
        rewrite (loadImageSafely_failure _ _ _ _ _ _ Htry). cbn [fst].
        unfold hookCalls. rewrite Hnone.
        destruct Htr as [-> | ->];
          destruct (JsString.includes (exnToString e) "Image not found");
          destruct (truthy (useTransparentImageFallback options)); discriminate.
      * intros [Hsome _].
        rewrite (loadImageSafely_failure _ _ _ _ _ _ Htry). cbn [fst].
        unfold hookCalls.
        destruct (onError options) as [f|]; [|congruence].
        destruct Htr as [-> | ->];
          destruct (JsString.includes (exnToString e) "Image not found");
          destruct (truthy (useTransparentImageFallback options)); reflexivity.
    + intros tr' e' f Htry' Hf. rewrite Htry in Htry'. injection Htry' as <- <-.
      rewrite (loadImageSafely_failure _ _ _ _ _ _ Htry). cbn [fst].
      unfold hookCalls. rewrite Hf. cbn [app].
      eexists. split; [reflexivity|].
      destruct Htr as [-> | ->];
        destruct (JsString.includes (exnToString e) "Image not found");
        destruct (truthy (useTransparentImageFallback options));
        repeat split; reflexivity.
  - destruct (streamEvents_counts engine s) as (_ & Hk & _ & _).
    assert (Hzero : hookCount (fst (loadImageSafely engine supabaseClient
                                      imageData options)) = 0%nat).
    { rewrite Hrun. cbn [fst]. rewrite hookCount_app.
      change (EvWriteHead 200 (successHeaders options) :: streamEvents engine s)%list
        with ([EvWriteHead 200 (successHeaders options)]
                ++ streamEvents engine s)%list.
      rewrite hookCount_app, Hk. destruct Hpre as [-> | ->]; reflexivity. }
    rewrite Hzero. split; [lia|]. split.
    + split; [discriminate|]. intros [_ [tr [e He]]]. congruence.
    + intros tr e f He. congruence.
Qed.

(** A pipeline is returned for a decoded image unless a resize is due and
    its width is refused. *)
Lemma pipeline_returned
  (engine : SharpEngine) (supabaseClient : SupabaseClient)
  (imageData : SupabaseImageData) (options : ImageLoaderOptions)
  (blob : list Byte.byte) (meta : Sharp.Metadata) (w : Z) :
  Decoded engine supabaseClient imageData blob meta w ->
  (overBudget options (byteLength blob) w = true ->
   (1 <= resizeTarget options (byteLength blob) w)%Z) ->
  getStreamableImage engine supabaseClient imageData options
  = ([EvDownload (bucket imageData) (path imageData)],
     inl (Sharp.mk blob
            ((if overBudget options (byteLength blob) w
              then [Sharp.Rotate;
                    Sharp.Resize (resizeTarget options (byteLength blob) w)]
              else [])
             ++ encodingCalls options)%list)).
Proof.
  intros Hdec Hok.
  rewrite (getStreamableImage_decoded _ _ _ options _ _ _ Hdec).
  destruct (overBudget options (byteLength blob) w); [|reflexivity].
  assert (Hpos : (0 <? resizeTarget options (byteLength blob) w)%Z = true).
  { apply Z.ltb_lt. specialize (Hok eq_refl). lia. }
  now rewrite Hpos.
Qed.

(** Conversely, a returned pipeline comes from a decoded image. *)
Lemma returned_pipeline_inv
  (engine : SharpEngine) (supabaseClient : SupabaseClient)
  (imageData : SupabaseImageData) (options : ImageLoaderOptions)
  (tr : list Event) (s : Sharp.t) :
  getStreamableImage engine supabaseClient imageData options = (tr, inl s) ->
  exists blob meta w,
    Decoded engine supabaseClient imageData blob meta w /\
    tr = [EvDownload (bucket imageData) (path imageData)] /\
    (overBudget options (byteLength blob) w = true ->
     (1 <= resizeTarget options (byteLength blob) w)%Z) /\
    s = Sharp.mk blob
          ((if overBudget options (byteLength blob) w
            then [Sharp.Rotate;
                  Sharp.Resize (resizeTarget options (byteLength blob) w)]
            else [])
           ++ encodingCalls options)%list.
Proof.
  intros Hget.
  destruct (getStreamableImage_cases engine supabaseClient imageData options)
    as [[_ Hrun] | [_ Hcases]]; [rewrite Hget in Hrun; discriminate|].
  destruct Hcases as [[e [_ Hrun]] | [[r [_ [_ Hrun]]] | [[r [_ [_ [_ Hrun]]]]
    | [[_ Hrun] | [[blob [e [_ [_ [_ Hrun]]]]] | [[blob [meta [_ [_ [_ [_ Hrun]]]]]]
    | [blob [meta [w Hdec]]]]]]]]];
    try (rewrite Hget in Hrun; discriminate).
  exists blob, meta, w. split; [exact Hdec|].
  rewrite (getStreamableImage_decoded _ _ _ options _ _ _ Hdec) in Hget.
  destruct (overBudget options (byteLength blob) w).
  - destruct (0 <? resizeTarget options (byteLength blob) w)%Z eqn:Hpos;
      [|discriminate].
    apply Z.ltb_lt in Hpos. injection Hget as <- <-.
    split; [reflexivity|]. split; [intros _; lia | reflexivity].
  - injection Hget as <- <-.
    split; [reflexivity|]. split; [discriminate | reflexivity].
Qed.

(** X12: the response status is 200 exactly for a request with a non-empty
    bucket and path whose image is delivered and decoded (a recognised
    extension, an answer with data and without error, a buffer that is not
    empty, metadata with a width that is not 0) and, if it is over a budget,
    gets a resize width of at least 1. *)
Theorem status_200_exactly_for_decoded_images
  (engine : SharpEngine) (supabaseClient : SupabaseClient)
  (imageData : SupabaseImageData) (options : ResponderOptions) :
  responseStatus (fst (loadImageSafely engine supabaseClient imageData options))
  = Some 200%Z
  <-> bucket imageData <> "" /\ path imageData <> "" /\
      exists blob meta w,
        Decoded engine supabaseClient imageData blob meta w /\
        ((byteLength blob > maxSizeBytes options \/ w > maxSizeWidth options)%Z ->
         (1 <= resizeTarget options (byteLength blob) w)%Z).
Proof.
  split.
  - intros Hstatus.
    destruct (loadImageSafely_shapes engine supabaseClient imageData options)
      as [[tr [e [Htry Htr]]] | [pre [s [Hvalid [Hget [_ _]]]]]].
    + destruct (failure_status _ _ _ _ _ _ Htry) as [Hs _]. rewrite Hs in Hstatus.
      destruct (JsString.includes (exnToString e) "Image not found"); discriminate.
    + apply valid_reference in Hvalid as [Hb Hp].
      split; [exact Hb|]. split; [exact Hp|].
      destruct (returned_pipeline_inv _ _ _ _ _ _ Hget)
        as [blob [meta [w [Hdec [_ [Hok _]]]]]].
      exists blob, meta, w. split; [exact Hdec|].
      intros Hover. apply Hok. unfold overBudget. now apply budget_test_true.
  - intros (Hb & Hp & blob & meta & w & Hdec & Hok).
    assert (Hok' : overBudget options (byteLength blob) w = true ->
                   (1 <= resizeTarget options (byteLength blob) w)%Z).
    { intros Hover. apply Hok. unfold overBudget in Hover.
      now apply budget_test_true in Hover. }
    pose proof (pipeline_returned _ _ _ options _ _ _ Hdec Hok') as Hget.
    rewrite (success_status_of_pipeline engine supabaseClient imageData options _ _
               Hb Hp Hget).
    reflexivity.
Qed.

Example status_200_for_sample_image :
  responseStatus
    (fst (loadImageSafely (sampleEngine 100 50 Ended) (deliveringClient sampleBlob)
            photo (respondWith THUMBNAIL_IMAGE_LOADER_OPTIONS None)))
  = Some 200%Z.
Proof. reflexivity. Qed.

(** ** The pipeline, continued *)

(** X13: every pipeline that is returned has the delivered data as its
    input and ends with the one JPEG call, carrying the quality and the
    progressive flag of the options; the sharpening with sigma 0.9 comes
    just before it and is there exactly when the options ask for it; before
    these the pipeline is empty or is a rotate followed by a resize to a
    width of at least 1. *)
Theorem pipeline_shape
  (engine : SharpEngine) (supabaseClient : SupabaseClient)
  (imageData : SupabaseImageData) (options : ImageLoaderOptions)
  (tr : list Event) (streamable : Sharp.t) :
  getStreamableImage engine supabaseClient imageData options = (tr, inl streamable) ->
  exists front,
    tr = [EvDownload (bucket imageData) (path imageData)] /\
    supabaseClient (bucket imageData) (path imageData)
    = inl {| data := Some (Sharp.input streamable); error := None |} /\
    Sharp.calls streamable
    = (front
         ++ (if truthy (sharpen options) then [Sharp.Sharpen (9 # 10)] else [])
         ++ [Sharp.Jpeg (quality options) (progressive options)])%list /\
    (front = [] \/ exists n, (1 <= n)%Z /\ front = [Sharp.Rotate; Sharp.Resize n]) /\
    List.length (filter isJpeg (Sharp.calls streamable)) = 1%nat /\
    Sharp.outputFormat (Sharp.calls streamable)
    = Some (quality options, progressive options) /\
    (In (Sharp.Sharpen (9 # 10)) (Sharp.calls streamable)
     <-> sharpen options = Some true).
Proof.
  intros Hget.
  destruct (returned_pipeline_inv _ _ _ _ _ _ Hget)
    as [blob [meta [w [Hdec [Htr [Hok ->]]]]]].
  cbn [Sharp.input Sharp.calls].
  eexists. split; [exact Htr|].
  split; [destruct Hdec as (_ & Hdown & _); exact Hdown|].
  split; [reflexivity|].
  assert (Htruthy : truthy (sharpen options) = true <-> sharpen options = Some true).
  { unfold truthy. destruct (sharpen options) as [[|]|]; split; congruence. }
  split; [|split; [|split]].
  - destruct (overBudget options (byteLength blob) w);
      [right; eexists; split; [exact (Hok eq_refl) | reflexivity] | left; reflexivity].
  - unfold encodingCalls.
    destruct (overBudget options (byteLength blob) w);
      destruct (truthy (sharpen options)); reflexivity.
  - apply outputFormat_encodingCalls.
  - rewrite <- Htruthy. unfold encodingCalls.
    destruct (overBudget options (byteLength blob) w);
      destruct (truthy (sharpen options)); cbn [app In]; split;
      first [reflexivity | discriminate | tauto
            | (intros H; repeat (destruct H as [H | H]; try discriminate H);
               contradiction)].
Qed.

Lemma pipeline_shape_witness :
  getStreamableImage (sampleEngine 3000 2000 Ended) (deliveringClient sampleBlob)
    photo tinyBudget
  = ([EvDownload "imgs" "photo.PNG"],
     inl (Sharp.mk sampleBlob
            [Sharp.Rotate; Sharp.Resize 120; Sharp.Sharpen (9 # 10);
             Sharp.Jpeg 60 (Some true)]))
  /\ Sharp.outputFormat
       [Sharp.Rotate; Sharp.Resize 120; Sharp.Sharpen (9 # 10);
        Sharp.Jpeg 60 (Some true)]
     = Some (60%Z, Some true).
Proof.
  assert (Hget : getStreamableImage (sampleEngine 3000 2000 Ended)
                   (deliveringClient sampleBlob) photo tinyBudget
                 = ([EvDownload "imgs" "photo.PNG"],
                    inl (Sharp.mk sampleBlob
                           [Sharp.Rotate; Sharp.Resize 120; Sharp.Sharpen (9 # 10);
                            Sharp.Jpeg 60 (Some true)])))
    by (vm_compute; reflexivity).
  split; [exact Hget|].
  destruct (pipeline_shape _ _ _ _ _ _ Hget) as [front [_ [_ [_ [_ [_ [Hfmt _]]]]]]].
  exact Hfmt.
Defined.

(** The width the encoder is asked to produce, in both branches. *)
Lemma outputWidth_of_pipeline
  (engine : SharpEngine) (supabaseClient : SupabaseClient)
  (imageData : SupabaseImageData) (options : ImageLoaderOptions)
  (blob : list Byte.byte) (meta : Sharp.Metadata) (w : Z) :
  Decoded engine supabaseClient imageData blob meta w ->
  (overBudget options (byteLength blob) w = true ->
   (1 <= resizeTarget options (byteLength blob) w)%Z) ->
  exists streamable,
    getStreamableImage engine supabaseClient imageData options
    = ([EvDownload (bucket imageData) (path imageData)], inl streamable) /\
    Sharp.outputWidth meta streamable
    = Some (if overBudget options (byteLength blob) w
            then resizeTarget options (byteLength blob) w
            else w) /\
    Sharp.resizeWidth (Sharp.calls streamable)
    = if overBudget options (byteLength blob) w
      then Some (resizeTarget options (byteLength blob) w)
      else None.
Proof.
  intros Hdec Hok.
  rewrite (pipeline_returned _ _ _ options _ _ _ Hdec Hok).
  eexists. split; [reflexivity|].
  unfold Sharp.outputWidth. cbn [Sharp.calls].
  destruct (overBudget options (byteLength blob) w).
  - cbn [app Sharp.resizeWidth].
    rewrite resizeWidth_encodingCalls. split; reflexivity.
  - cbn [app]. rewrite resizeWidth_encodingCalls, rotate_not_in_encodingCalls.
    destruct Hdec as (_ & _ & _ & _ & Hwidth & _). split; [exact Hwidth | reflexivity].
Qed.

(** ** Numbers, continued *)

Section NumberFactsMore.

Import JsNumber.
Local Open Scope Q_scope.

Lemma round53_lower (x : Q) : 0 < x -> x * (1 - 2 ^ (-53)) <= round53 x.
Proof.
  intros Hx. rewrite (round53_pos x Hx).
  destruct (ilog2_spec x Hx) as [Hlo _].
  pose proof (pow2_pos (ilog2 x - 52)) as Hs.
  destruct (rne_close (x / 2 ^ (ilog2 x - 52))) as [Hr _].
  apply Qle_trans with ((x / 2 ^ (ilog2 x - 52) - (1 # 2)) * 2 ^ (ilog2 x - 52)).
  - setoid_replace ((x / 2 ^ (ilog2 x - 52) - (1 # 2)) * 2 ^ (ilog2 x - 52))
      with (x - (1 # 2) * 2 ^ (ilog2 x - 52)) by (field; lra).
    assert (Hhalf : (1 # 2) * 2 ^ (ilog2 x - 52) == 2 ^ ilog2 x * 2 ^ (-53)).
    { rewrite <- pow2_add.
      replace (ilog2 x + -53)%Z with ((ilog2 x - 52) + -1)%Z by lia.
      rewrite pow2_add. change (2 ^ (-1)) with (/ 2). field. }
    rewrite Hhalf.
    pose proof (pow2_pos (-53)) as Hu.
    assert (2 ^ ilog2 x * 2 ^ (-53) <= x * 2 ^ (-53)).
    { apply Qmult_le_compat_r; [exact Hlo | lra]. }
    lra.
  - apply Qmult_le_compat_r; [exact Hr | lra].
Qed.

Lemma mathRound_ge (x : Q) (k : Z) :
  inject_Z k - (1 # 2) <= x -> (k <= mathRound x)%Z.
Proof.
  intros H. unfold mathRound.
  pose proof (Qlt_floor (x + (1 # 2))) as Hhi.
  assert (H1 : inject_Z k < inject_Z (Qfloor (x + (1 # 2)) + 1)) by lra.
  rewrite <- Zlt_Qlt in H1. lia.
Qed.

Lemma mathRound_mono (x y : Q) : x <= y -> (mathRound x <= mathRound y)%Z.
Proof. intros H. unfold mathRound. apply Qfloor_resp_le. lra. Qed.

Lemma round53_one : round53 1 == 1.
Proof. exact (round53_integer 1 ltac:(lia)). Qed.

(** When only the width is over its budget the scaled width rounds to the
    budget itself. *)
Lemma width_only_target (w b mb mw : Z) :
  (0 < w < 2 ^ 53)%Z -> (0 < b <= mb)%Z -> (0 < mw < 2 ^ 51)%Z -> (mw < w)%Z ->
  mathRound
    (mul (ofZ w)
       (mathMin (mathMin 1 (div (ofZ mw) (ofZ w)))
                (mathMin 1 (div (ofZ mb) (ofZ b)))))
  = mw.
Proof.
  intros Hw Hb Hmw Hlt.
  destruct (resize_target_bounds w b mb mw Hw ltac:(lia) ltac:(lia) Hmw)
    as [_ Hupper].
  apply Z.le_antisymm; [now apply Hupper|].
  apply mathRound_ge.
  pose proof (inject_Z_pos w ltac:(lia)) as HW.
  pose proof (inject_Z_pos mw ltac:(lia)) as HMW.
  pose proof (inject_Z_pos b ltac:(lia)) as HB.
  pose proof (quotient_pos mw w ltac:(lia) ltac:(lia)) as Hqw.
  pose proof (quotient_pos mb b ltac:(lia) ltac:(lia)) as Hqb.
  pose proof round53_one as Hone.
  unfold mul, div, ofZ, mathMin.
  (* the byte ratio is 1 and the width ratio is the rounded quotient *)
  assert (Hfb : 1 <= round53 (inject_Z mb / inject_Z b)).
  { assert (Hge : 1 <= inject_Z mb / inject_Z b).
    { apply Qle_shift_div_l; [exact HB|]. rewrite Qmult_1_l.
      rewrite <- Zle_Qle. lia. }
    pose proof (round53_mono 1 _ ltac:(lra) Hge). lra. }
  assert (Hfw : round53 (inject_Z mw / inject_Z w) <= 1).
  { assert (Hle : inject_Z mw / inject_Z w <= 1).
    { apply Qle_shift_div_r; [exact HW|]. rewrite Qmult_1_l.
      rewrite <- Zle_Qle. lia. }
    pose proof (round53_mono _ 1 Hqw Hle). lra. }
  pose proof (round53_positive _ Hqw) as Hfwpos.
  pose proof (round53_lower _ Hqw) as Hlow.
  set (fw := round53 (inject_Z mw / inject_Z w)) in *.
  set (fb := round53 (inject_Z mb / inject_Z b)) in *.
  assert (Hfactor : fw <= Qmin (Qmin 1 fw) (Qmin 1 fb)).
  { repeat apply Q.min_glb; lra. }
  assert (Hfpos : 0 < Qmin (Qmin 1 fw) (Qmin 1 fb)) by lra.
  (* the exact value a quarter below the budget *)
  assert (Hquarter : inject_Z (4 * mw - 1) * 2 ^ (-2) == inject_Z mw - (1 # 4)).
  { replace (4 * mw - 1)%Z with (4 * mw + -1)%Z by lia.
    rewrite inject_Z_plus, inject_Z_mult. change (2 ^ (-2)) with (1 # 4).
    change (inject_Z 4) with 4. change (inject_Z (-1)) with (-1 # 1). ring. }
  assert (Hpos4 : 0 < inject_Z (4 * mw - 1) * 2 ^ (-2)).
  { apply Qmult_lt_0_compat; [apply inject_Z_pos; lia | apply pow2_pos]. }
  pose proof (round53_compat _ _ Hpos4 Hquarter) as Hc.
  pose proof (round53_exact (4 * mw - 1) (-2) ltac:(lia)) as He.
  assert (Hmono : round53 (inject_Z mw - (1 # 4))
                  <= round53 (inject_Z w * Qmin (Qmin 1 fw) (Qmin 1 fb))).
  { apply round53_mono; [lra|].
    apply Qle_trans with (inject_Z w * fw).
    - apply Qle_trans with
        (inject_Z w * (inject_Z mw / inject_Z w * (1 - 2 ^ (-53)))).
      + setoid_replace (inject_Z w * (inject_Z mw / inject_Z w * (1 - 2 ^ (-53))))
          with (inject_Z mw - inject_Z mw * 2 ^ (-53)) by (field; lra).
        assert (Hmwb : inject_Z mw <= 2 ^ 51).
        { rewrite <- pow2_Z by lia. rewrite <- Zle_Qle. lia. }
        assert (Hu : inject_Z mw * 2 ^ (-53) <= 2 ^ 51 * 2 ^ (-53)).
        { apply Qmult_le_compat_r; [exact Hmwb|]. apply Qlt_le_weak, pow2_pos. }
        rewrite <- pow2_add in Hu. change (2 ^ (51 + -53)) with (1 # 4) in Hu.
        lra.
      + apply Qmult_le_l; [exact HW | exact Hlow].
    - apply Qmult_le_l; [exact HW | exact Hfactor]. }
  lra.
Qed.

(** A larger quotient of byte budget and byte length gives a width that is
    at least as large. *)
Lemma target_mono_in_byte_ratio (w mw b mb b' mb' : Z) :
  (0 < w)%Z -> (0 < mw)%Z -> (0 < b)%Z -> (0 < mb)%Z -> (0 < b')%Z -> (0 < mb')%Z ->
  (mb * b' <= mb' * b)%Z ->
  (mathRound
     (mul (ofZ w)
        (mathMin (mathMin 1 (div (ofZ mw) (ofZ w)))
                 (mathMin 1 (div (ofZ mb) (ofZ b)))))
   <= mathRound
        (mul (ofZ w)
           (mathMin (mathMin 1 (div (ofZ mw) (ofZ w)))
                    (mathMin 1 (div (ofZ mb') (ofZ b'))))))%Z.
Proof.
  intros Hw Hmw Hb Hmb Hb' Hmb' Hratio.
  pose proof (inject_Z_pos w Hw) as HW.
  pose proof (inject_Z_pos b Hb) as HB.
  pose proof (inject_Z_pos b' Hb') as HB'.
  pose proof (quotient_pos mw w Hmw Hw) as Hqw.
  pose proof (quotient_pos mb b Hmb Hb) as Hqb.
  pose proof (quotient_pos mb' b' Hmb' Hb') as Hqb'.
  unfold mul, div, ofZ, mathMin.
  assert (Hq : inject_Z mb / inject_Z b <= inject_Z mb' / inject_Z b').
  { apply Qle_shift_div_l; [exact HB'|].
    setoid_replace (inject_Z mb / inject_Z b * inject_Z b')
      with ((inject_Z mb * inject_Z b') / inject_Z b) by (field; lra).
    apply Qle_shift_div_r; [exact HB|].
    rewrite <- !inject_Z_mult, <- Zle_Qle. exact Hratio. }
  pose proof (round53_mono _ _ Hqb Hq) as Hr.
  pose proof (round53_positive _ Hqw) as Hfw.
  pose proof (round53_positive _ Hqb) as Hfb.
  set (fw := round53 (inject_Z mw / inject_Z w)) in *.
  set (fb := round53 (inject_Z mb / inject_Z b)) in *.
  set (fb' := round53 (inject_Z mb' / inject_Z b')) in *.
  assert (Hpos : 0 < Qmin (Qmin 1 fw) (Qmin 1 fb)).
  { repeat apply Q.min_glb_lt; lra. }
  assert (Hle : Qmin (Qmin 1 fw) (Qmin 1 fb) <= Qmin (Qmin 1 fw) (Qmin 1 fb')).
  { apply Q.min_le_compat_l. apply Q.min_le_compat_l. exact Hr. }
  apply mathRound_mono. apply round53_mono.
  - apply Qmult_lt_0_compat; assumption.
  - apply Qmult_le_l; assumption.
Qed.

End NumberFactsMore.

(** ** The resize, continued *)

Lemma byteLength_pos (blob : list Byte.byte) : blob <> [] -> (0 < byteLength blob)%Z.
Proof. intros H. unfold byteLength. destruct blob; [congruence | simpl; lia]. Qed.

(** X14: an image that fits the byte budget but is wider than
    [maxSizeWidth] is resized to exactly [maxSizeWidth]: the rounding of the
    quotient and of the product never moves the result off the budget. *)
Theorem width_overshoot_resized_to_budget
  (engine : SharpEngine) (supabaseClient : SupabaseClient)
  (imageData : SupabaseImageData) (options : ImageLoaderOptions)
  (blob : list Byte.byte) (meta : Sharp.Metadata) (w : Z) :
  Decoded engine supabaseClient imageData blob meta w ->
  (0 < w < 2 ^ 53)%Z ->
  (byteLength blob <= maxSizeBytes options)%Z ->
  (0 < maxSizeWidth options < 2 ^ 51)%Z ->
  (maxSizeWidth options < w)%Z ->
  exists streamable,
    getStreamableImage engine supabaseClient imageData options
    = ([EvDownload (bucket imageData) (path imageData)], inl streamable) /\
    Sharp.resizeWidth (Sharp.calls streamable) = Some (maxSizeWidth options) /\
    Sharp.outputWidth meta streamable = Some (maxSizeWidth options).
Proof.
  intros Hdec Hw Hb Hmw Hlt.
  assert (Hbpos : (0 < byteLength blob)%Z).
  { destruct Hdec as (_ & _ & Hne & _). now apply byteLength_pos. }
  assert (Hcond : overBudget options (byteLength blob) w = true).
  { unfold overBudget. apply budget_test_true. right. lia. }
  assert (Htarget : resizeTarget options (byteLength blob) w = maxSizeWidth options).
  { unfold resizeTarget.
    exact (width_only_target w (byteLength blob) (maxSizeBytes options)
             (maxSizeWidth options) Hw (conj Hbpos Hb) Hmw Hlt). }
  destruct (outputWidth_of_pipeline _ _ _ options _ _ _ Hdec)
    as [s [Hget [Hout Hresize]]].
  { intros _. rewrite Htarget. lia. }
  rewrite Hcond, Htarget in Hout, Hresize.
  exists s. split; [exact Hget|]. split; [exact Hresize | exact Hout].
Qed.

Lemma width_overshoot_resized_to_budget_witness :
  Decoded (sampleEngine 3000 2000 Ended) (deliveringClient sampleBlob) photo
    sampleBlob (sampleMeta 3000 2000 None) 3000
  /\ exists streamable,
       getStreamableImage (sampleEngine 3000 2000 Ended) (deliveringClient sampleBlob)
         photo FULL_IMAGE_LOADER_OPTIONS
       = ([EvDownload "imgs" "photo.PNG"], inl streamable)
       /\ Sharp.outputWidth (sampleMeta 3000 2000 None) streamable = Some 2500%Z.
Proof.
  assert (Hdec : Decoded (sampleEngine 3000 2000 Ended) (deliveringClient sampleBlob)
                   photo sampleBlob (sampleMeta 3000 2000 None) 3000).
  { repeat split; try reflexivity; discriminate. }
  split; [exact Hdec|].
  destruct (width_overshoot_resized_to_budget
              (sampleEngine 3000 2000 Ended) (deliveringClient sampleBlob)
              photo FULL_IMAGE_LOADER_OPTIONS sampleBlob (sampleMeta 3000 2000 None)
              3000 Hdec)
    as [s [Hget [_ Hout]]].
  - split; reflexivity.
  - vm_compute. discriminate.
  - split; reflexivity.
  - reflexivity.
  - exists s. split; [exact Hget | exact Hout].
Defined.

(** X15: with the width budget unchanged, a larger byte budget never gives
    a narrower image and never turns a pipeline into a refusal: if a pipeline
    is returned under the smaller [maxSizeBytes], one is returned under the
    larger, and its encoded width is at least as large. *)
Theorem larger_byte_budget_never_narrows
  (engine : SharpEngine) (supabaseClient : SupabaseClient)
  (imageData : SupabaseImageData) (small large : ImageLoaderOptions)
  (blob : list Byte.byte) (meta : Sharp.Metadata) (w : Z)
  (tr : list Event) (s : Sharp.t) :
  Decoded engine supabaseClient imageData blob meta w ->
  (0 < w < 2 ^ 53)%Z ->
  (0 < maxSizeBytes small <= maxSizeBytes large)%Z ->
  (0 < maxSizeWidth small < 2 ^ 51)%Z ->
  maxSizeWidth large = maxSizeWidth small ->
  getStreamableImage engine supabaseClient imageData small = (tr, inl s) ->
  exists s' n n',
    getStreamableImage engine supabaseClient imageData large
    = ([EvDownload (bucket imageData) (path imageData)], inl s') /\
    Sharp.outputWidth meta s = Some n /\
    Sharp.outputWidth meta s' = Some n' /\
    (n <= n')%Z.
Proof.
  intros Hdec Hw Hmb Hmw Hsame Hsmall.
  assert (Hbpos : (0 < byteLength blob)%Z).
  { destruct Hdec as (_ & _ & Hne & _). now apply byteLength_pos. }
  (* the pipeline under the small budget *)
  pose proof (getStreamableImage_decoded _ _ _ small _ _ _ Hdec) as Hrun.
  rewrite Hsmall in Hrun.
  assert (Hok : overBudget small (byteLength blob) w = true ->
                (1 <= resizeTarget small (byteLength blob) w)%Z).
  { intros Hover. rewrite Hover in Hrun.
    destruct (0 <? resizeTarget small (byteLength blob) w)%Z eqn:Hpos;
      [apply Z.ltb_lt in Hpos; lia | discriminate]. }
  destruct (outputWidth_of_pipeline _ _ _ small _ _ _ Hdec Hok)
    as [s0 [Hget [Hout _]]].
  assert (s0 = s) by congruence. subst s0.
  (* the two widths compared *)
  assert (Hmono : (resizeTarget small (byteLength blob) w
                   <= resizeTarget large (byteLength blob) w)%Z).
  { unfold resizeTarget. rewrite Hsame.
    apply target_mono_in_byte_ratio; try lia. nia. }
  destruct (resize_target_bounds w (byteLength blob) (maxSizeBytes small)
              (maxSizeWidth small) Hw Hbpos ltac:(lia) Hmw) as [[_ Hle] _].
  fold (resizeTarget small (byteLength blob) w) in Hle.
  assert (Himp : overBudget large (byteLength blob) w = true ->
                 overBudget small (byteLength blob) w = true).
  { unfold overBudget. rewrite Hsame, !orb_true_iff, !Z.gtb_ltb, !Z.ltb_lt. lia. }
  assert (Hok' : overBudget large (byteLength blob) w = true ->
                 (1 <= resizeTarget large (byteLength blob) w)%Z).
  { intros Hover. specialize (Hok (Himp Hover)). lia. }
  destruct (outputWidth_of_pipeline _ _ _ large _ _ _ Hdec Hok')
    as [s' [Hget' [Hout' _]]].
  exists s'. eexists. eexists.
  split; [exact Hget'|]. split; [exact Hout|]. split; [exact Hout'|].
  destruct (overBudget small (byteLength blob) w) eqn:Hc;
    destruct (overBudget large (byteLength blob) w) eqn:Hc'.
  - exact Hmono.
  - exact Hle.
  - specialize (Himp eq_refl). discriminate.
  - lia.
Qed.

Lemma larger_byte_budget_never_narrows_witness :
  Decoded (sampleEngine 100 50 Ended) (deliveringClient sampleBlob) photo
    sampleBlob (sampleMeta 100 50 None) 100
  /\ getStreamableImage (sampleEngine 100 50 Ended) (deliveringClient sampleBlob)
       photo (budget 1 120)
     = ([EvDownload "imgs" "photo.PNG"],
        inl (Sharp.mk sampleBlob
               [Sharp.Rotate; Sharp.Resize 25; Sharp.Jpeg 80 (Some false)]))
  /\ exists s' n n',
       getStreamableImage (sampleEngine 100 50 Ended) (deliveringClient sampleBlob)
         photo (budget 3 120)
       = ([EvDownload "imgs" "photo.PNG"], inl s')
       /\ Sharp.outputWidth (sampleMeta 100 50 None)
            (Sharp.mk sampleBlob
               [Sharp.Rotate; Sharp.Resize 25; Sharp.Jpeg 80 (Some false)])
          = Some n
       /\ Sharp.outputWidth (sampleMeta 100 50 None) s' = Some n'
       /\ (n <= n')%Z.
Proof.
  assert (Hdec : Decoded (sampleEngine 100 50 Ended) (deliveringClient sampleBlob)
                   photo sampleBlob (sampleMeta 100 50 None) 100).
  { repeat split; try reflexivity; discriminate. }
  assert (Hsmall : getStreamableImage (sampleEngine 100 50 Ended)
                     (deliveringClient sampleBlob) photo (budget 1 120)
                   = ([EvDownload "imgs" "photo.PNG"],
                      inl (Sharp.mk sampleBlob
                             [Sharp.Rotate; Sharp.Resize 25;
                              Sharp.Jpeg 80 (Some false)])))
    by (vm_compute; reflexivity).
  split; [exact Hdec|]. split; [exact Hsmall|].
  apply (larger_byte_budget_never_narrows
           (sampleEngine 100 50 Ended) (deliveringClient sampleBlob) photo
           (budget 1 120) (budget 3 120) sampleBlob (sampleMeta 100 50 None) 100
           [EvDownload "imgs" "photo.PNG"]
           (Sharp.mk sampleBlob
              [Sharp.Rotate; Sharp.Resize 25; Sharp.Jpeg 80 (Some false)])
           Hdec).
  - split; reflexivity.
  - split; [reflexivity | vm_compute; discriminate].
  - split; reflexivity.
  - reflexivity.
  - exact Hsmall.
Defined.

Example byte_budget_steps :
  match getStreamableImage (sampleEngine 100 50 Ended) (deliveringClient sampleBlob)
          photo (budget 1 120),
        getStreamableImage (sampleEngine 100 50 Ended) (deliveringClient sampleBlob)
          photo (budget 3 120) with
  | (_, inl s), (_, inl s') =>
      (Sharp.outputWidth (sampleMeta 100 50 None) s,
       Sharp.outputWidth (sampleMeta 100 50 None) s')
  | _, _ => (None, None)
  end = (Some 25%Z, Some 75%Z).
Proof. vm_compute. reflexivity. Qed.

(** ** The diagnostic text *)

Lemma escapeChar_plain (c : ascii) :
  plainChar c = true -> Json.escapeChar c = String c "".
Proof.
  destruct c as [[] [] [] [] [] [] [] []]; cbv; intros H;
    first [reflexivity | discriminate H].
Qed.

Lemma escape_plain (s : string) : plainString s = true -> Json.escape s = s.
Proof.
  induction s as [|c s IH]; [reflexivity|].
  cbn [plainString Json.escape]. intros H. apply andb_true_iff in H as [Hc Hs].
  now rewrite (escapeChar_plain c Hc), (IH Hs).
Qed.

(** X16: for a bucket and a path made of characters from the space upwards
    other than the double quote and the backslash, the error thrown for a
    missing object reads
    [Image not found > {"bucket":"<bucket>","path":"<path>"}], bucket and
    path verbatim; the text for an answer without data differs in its first
    words only. *)
Theorem error_text_embeds_bucket_and_path
  (serverClient : SupabaseClient) (b p : string) (r : DownloadResponse) :
  plainString b = true -> plainString p = true ->
  serverClient b p = inl r ->
  data r = None \/ error r <> None ->
  let info := "{" ++ dquote ++ "bucket" ++ dquote ++ ":" ++ dquote ++ b ++ dquote
                  ++ "," ++ dquote ++ "path" ++ dquote ++ ":" ++ dquote ++ p ++ dquote
                  ++ "}" in
  snd (loadImageFromSupabase serverClient b p)
  = inr (JsError (match error r with
                  | Some _ => "Image not found > "
                  | None => "Blob was not retrieved > "
                  end ++ info)).
Proof.
  intros Hb Hp Hc Hcase info.
  assert (Hinfo : Json.stringifyBucketPath b p = info).
  { unfold Json.stringifyBucketPath, Json.quote, info, dquote.
    rewrite (escape_plain b Hb), (escape_plain p Hp).
    cbn [Json.escape Json.escapeChar]. cbn. rewrite !append_assoc. reflexivity. }
  unfold loadImageFromSupabase, bind, emit, lift, throw, ret.
  rewrite Hc, Hinfo. cbn [snd].
  destruct (error r) as [msg|]; [reflexivity|].
  destruct Hcase as [Hd | He]; [rewrite Hd; reflexivity | congruence].
Qed.

Lemma error_text_embeds_bucket_and_path_witness :
  plainString "imgs" = true /\ plainString "photo.PNG" = true
  /\ snd (loadImageFromSupabase missingClient "imgs" "photo.PNG")
     = inr (JsError ("Image not found > {" ++ dquote ++ "bucket" ++ dquote ++ ":"
                     ++ dquote ++ "imgs" ++ dquote ++ "," ++ dquote ++ "path" ++ dquote
                     ++ ":" ++ dquote ++ "photo.PNG" ++ dquote ++ "}")).
Proof.
  split; [reflexivity|]. split; [reflexivity|].
  apply (error_text_embeds_bucket_and_path missingClient "imgs" "photo.PNG"
           {| data := None; error := Some "Object not found" |}
           eq_refl eq_refl eq_refl (or_introl eq_refl)).
Defined.

(** ** The successful response in full *)

(** X17: for a request with a non-empty bucket and path for which the
    pipeline is returned, the trace is: the one download, the head with
    status 200, Content-Type image/jpg and Cache-Control max-age= followed
    by [standardCacheTime], the pipe of that pipeline, then every chunk it
    emits, in order, and the end of the response if the stream ends.
    Nothing is written to the response before the download has been made. *)
Theorem returned_pipeline_is_streamed
  (engine : SharpEngine) (supabaseClient : SupabaseClient)
  (imageData : SupabaseImageData) (options : ResponderOptions)
  (tr : list Event) (streamable : Sharp.t) :
  bucket imageData <> "" -> path imageData <> "" ->
  getStreamableImage engine supabaseClient imageData options = (tr, inl streamable) ->
  loadImageSafely engine supabaseClient imageData options
  = ((EvDownload (bucket imageData) (path imageData)
        :: EvWriteHead 200
             [("Content-Type", HStr "image/jpg");
              ("Cache-control",
               HStr ("max-age=" ++ match standardCacheTime options with
                                   | Some t => JsNumber.toString t
                                   | None => "undefined"
                                   end))]
        :: EvPipe streamable
        :: map EvWrite (chunks (render engine streamable))
        ++ match finish (render engine streamable) with
           | Ended => [EvEnd None]
           | Failed _ => []
           end)%list,
     inl match finish (render engine streamable) with
         | Ended => Resolved
         | Failed _ => Pending
         end).
Proof.
  intros Hb Hp Hget.
  destruct (returned_pipeline_inv _ _ _ _ _ _ Hget) as [_ [_ [_ [_ [Htr _]]]]].
  subst tr.
  pose proof (try_after_pipeline engine supabaseClient imageData options _ _
                (proj2 (valid_reference imageData) (conj Hb Hp)) Hget) as Htry.
  unfold loadImageSafely, tryCatch. rewrite Htry. reflexivity.
Qed.

Lemma returned_pipeline_is_streamed_witness :
  getStreamableImage (sampleEngine 100 50 Ended) (deliveringClient sampleBlob) photo
    FULL_IMAGE_LOADER_OPTIONS
  = ([EvDownload "imgs" "photo.PNG"],
     inl (Sharp.mk sampleBlob [Sharp.Jpeg 94 (Some true)]))
  /\ loadImageSafely (sampleEngine 100 50 Ended) (deliveringClient sampleBlob) photo
       (respondWith FULL_IMAGE_LOADER_OPTIONS None)
     = ([EvDownload "imgs" "photo.PNG";
         EvWriteHead 200
           [("Content-Type", HStr "image/jpg");
            ("Cache-control", HStr "max-age=432000")];
         EvPipe (Sharp.mk sampleBlob [Sharp.Jpeg 94 (Some true)]);
         EvWrite [Byte.xff; Byte.xd8]; EvWrite [Byte.xff; Byte.xd9];
         EvEnd None],
        inl Resolved).
Proof.
  assert (Hget : getStreamableImage (sampleEngine 100 50 Ended)
                   (deliveringClient sampleBlob) photo FULL_IMAGE_LOADER_OPTIONS
                 = ([EvDownload "imgs" "photo.PNG"],
                    inl (Sharp.mk sampleBlob [Sharp.Jpeg 94 (Some true)])))
    by reflexivity.
  split; [exact Hget|].
  rewrite (returned_pipeline_is_streamed
             (sampleEngine 100 50 Ended) (deliveringClient sampleBlob) photo
             (respondWith FULL_IMAGE_LOADER_OPTIONS None)
             [EvDownload "imgs" "photo.PNG"]
             (Sharp.mk sampleBlob [Sharp.Jpeg 94 (Some true)])
             ltac:(discriminate) ltac:(discriminate) Hget).
  reflexivity.
Defined.
